(** * Real-time notification layer of the task manager (routes.ts)

    A shallow embedding of the WebSocket part of [registerRoutes]:
    the [userConnections] registry, the ['message'] and ['close']
    handlers installed on every socket, [broadcastToUser], and the
    share route that calls it.

    - [userConnections] is a JavaScript [Map] from user ids to [Set]s of
      sockets.  Both containers iterate in insertion order, so the map is
      an association list and each set a duplicate-free list.
    - Handlers are written in a small state-and-exception monad [M]:
      JavaScript exceptions do not undo the effects that came before
      them, so a thrown outcome carries the state it was thrown in.
    - What a handler does to the outside world (console lines, calls of
      [JSON.stringify], frames handed to [ws.send]) is appended to the
      [trace] of the state, in program order. *)

From Stdlib Require Import List String ZArith Bool Arith Lia DecimalString.
Import ListNotations.
Open Scope string_scope.

Set Implicit Arguments.

(** ** JavaScript data *)

(** A JavaScript number as far as this code looks at it: [parseInt] may
    give [NaN]; every other number is tested for being zero or compared
    for equality only. *)
Inductive number :=
| NaN
| Num (z : Z).

(** Plain data: what [JSON.parse] returns and what [JSON.stringify]
    accepts.  [VObj] lists the own properties of the object. *)
#[local] Unset Elimination Schemes.
Inductive value :=
| VNull
| VBool (b : bool)
| VNum (n : number)
| VStr (s : string)
| VArr (items : list value)
| VObj (props : list (string * value)).
#[local] Set Elimination Schemes.

(** [None] stands for [undefined]. *)
Definition jsval := option value.

(** Own-property lookup in an object literal. *)
Fixpoint own_prop (name : string) (props : list (string * value)) : jsval :=
  match props with
  | [] => None
  | (n, v) :: rest => if String.eqb name n then Some v else own_prop name rest
  end.

(** JavaScript truthiness, as used by [&&] and [if]. *)
Definition truthy (v : jsval) : bool :=
  match v with
  | None => false
  | Some VNull => false
  | Some (VBool b) => b
  | Some (VNum NaN) => false
  | Some (VNum (Num z)) => negb (Z.eqb z 0)
  | Some (VStr s) => negb (String.eqb s "")
  | Some (VArr _) => true
  | Some (VObj _) => true
  end.

(** [v === 'AUTH'] *)
Definition strict_eq_str (v : jsval) (s : string) : bool :=
  match v with
  | Some (VStr s') => String.eqb s' s
  | _ => false
  end.

(** The errors that can be thrown in the modelled code. *)
Inductive exn :=
| SyntaxError     (* JSON.parse on text that is not JSON *)
| TypeError       (* property access on null or undefined *)
| ZodError        (* insertTaskShareSchema.parse rejects the body *)
| StorageError    (* storage.shareTask rejects *)
| NotOpenError.   (* ws.send on a socket that is still CONNECTING *)

(** ** Sockets and the registry *)

(** A [WebSocket] object, identified by its handle. *)
Definition conn := nat.

(** [ws.readyState] *)
Inductive ready_state := CONNECTING | OPEN | CLOSING | CLOSED.

Definition ready_state_eqb (a b : ready_state) : bool :=
  match a, b with
  | CONNECTING, CONNECTING | OPEN, OPEN | CLOSING, CLOSING | CLOSED, CLOSED => true
  | _, _ => false
  end.

(** Keys of a [Map] are compared with SameValueZero: primitives by value,
    objects and arrays by reference.  A [key] is a value up to that
    comparison; [KRef r] is the object allocated as number [r]. *)
Inductive key :=
| KUndefined
| KNull
| KBool (b : bool)
| KNum (n : number)
| KStr (s : string)
| KRef (r : nat).

Definition number_eqb (a b : number) : bool :=
  match a, b with
  | NaN, NaN => true
  | Num x, Num y => Z.eqb x y
  | _, _ => false
  end.

Definition key_eqb (a b : key) : bool :=
  match a, b with
  | KUndefined, KUndefined => true
  | KNull, KNull => true
  | KBool x, KBool y => Bool.eqb x y
  | KNum x, KNum y => number_eqb x y
  | KStr x, KStr y => String.eqb x y
  | KRef x, KRef y => Nat.eqb x y
  | _, _ => false
  end.

(** The key under which a value is stored; [fresh] is the reference of
    the value when it is an object or an array. *)
Definition key_of (fresh : nat) (v : jsval) : key :=
  match v with
  | None => KUndefined
  | Some VNull => KNull
  | Some (VBool b) => KBool b
  | Some (VNum n) => KNum n
  | Some (VStr s) => KStr s
  | Some (VArr _) => KRef fresh
  | Some (VObj _) => KRef fresh
  end.

(** [Set<WebSocket>] in insertion order. *)
Definition Set_has (ws : conn) (s : list conn) : bool := existsb (Nat.eqb ws) s.

Definition Set_add (ws : conn) (s : list conn) : list conn :=
  if Set_has ws s then s else s ++ [ws].

Definition Set_delete (ws : conn) (s : list conn) : list conn :=
  filter (fun c => negb (Nat.eqb ws c)) s.

(** [Map<string, Set<WebSocket>>] in insertion order. *)
Definition registry := list (key * list conn).

Fixpoint Map_get (k : key) (m : registry) : option (list conn) :=
  match m with
  | [] => None
  | (k', v) :: rest => if key_eqb k k' then Some v else Map_get k rest
  end.

Definition Map_has (k : key) (m : registry) : bool :=
  match Map_get k m with Some _ => true | None => false end.

(** [Map.set] keeps the position of a key that is already present and
    appends a new one. *)
Fixpoint Map_set (k : key) (v : list conn) (m : registry) : registry :=
  match m with
  | [] => [(k, v)]
  | (k', v') :: rest =>
      if key_eqb k k' then (k', v) :: rest else (k', v') :: Map_set k v rest
  end.

(** The spec's [connectionsFor]: [userConnections.get(userId)], with
    [undefined] read as the empty set. *)
Definition connectionsFor (k : key) (m : registry) : list conn :=
  match Map_get k m with Some s => s | None => [] end.

(** ** State, effects and the handler monad *)

Inductive action :=
| ConsoleError (label : string) (error : exn)   (* console.error(label, error) *)
| Stringify (message : value)                   (* JSON.stringify(message) *)
| Send (ws : conn) (data : string).             (* ws.send(data) on an open socket *)

Record state := mkState {
  userConnections : registry;         (* const userConnections = new Map() *)
  readyState : conn -> ready_state;   (* ws.readyState of every socket *)
  allocated : nat;                    (* object references used as keys so far *)
  trace : list action
}.

Inductive outcome (A : Type) :=
| Returned (a : A) (st : state)
| Thrown (e : exn) (st : state).

Arguments Thrown {A} e st.

Definition state_of {A} (o : outcome A) : state :=
  match o with Returned _ st => st | Thrown _ st => st end.

Definition M (A : Type) := state -> outcome A.

Definition ret {A} (a : A) : M A := fun st => Returned a st.

Definition bind {A B} (c : M A) (f : A -> M B) : M B :=
  fun st => match c st with
            | Returned a st' => f a st'
            | Thrown e st' => Thrown e st'
            end.

Definition throw {A} (e : exn) : M A := fun st => Thrown e st.

(** [try { body } catch (error) { handler }] *)
Definition try_catch {A} (body : M A) (handler : exn -> M A) : M A :=
  fun st => match body st with
            | Returned a st' => Returned a st'
            | Thrown e st' => handler e st'
            end.

Declare Scope js_scope.
Delimit Scope js_scope with js.
Notation "x <- c ;; k" := (bind c (fun x => k))
  (at level 61, c at next level, right associativity) : js_scope.
Notation "c ;; k" := (bind c (fun _ => k))
  (at level 61, right associativity) : js_scope.
Open Scope js_scope.

Definition get_registry : M registry := fun st => Returned (userConnections st) st.

Definition put_registry (m : registry) : M unit :=
  fun st => Returned tt (mkState m (readyState st) (allocated st) (trace st)).

Definition emit (a : action) : M unit :=
  fun st => Returned tt
    (mkState (userConnections st) (readyState st) (allocated st) (trace st ++ [a])).

Definition console_error (label : string) (error : exn) : M unit :=
  emit (ConsoleError label error).

(** The initial state: an empty map, nothing printed or sent; the ready
    states of the sockets are the transport's. *)
Definition init (rs : conn -> ready_state) : state := mkState [] rs 0 [].

(** ** The ['message'] handler (routes.ts, lines 310-324) *)

(** Lines 316-319, for the key of [data.userId]:
<<
    if (!userConnections.has(data.userId)) {
      userConnections.set(data.userId, new Set());
    }
    userConnections.get(data.userId)!.add(ws);
>>
    The [Set] is mutated in place: the entry keeps its position. *)
Definition register (userId : key) (ws : conn) : M unit :=
  m <- get_registry ;;
  (if negb (Map_has userId m) then put_registry (Map_set userId [] m) else ret tt) ;;
  m1 <- get_registry ;;
  match Map_get userId m1 with
  | Some connections => put_registry (Map_set userId (Set_add ws connections) m1)
  | None => throw TypeError
  end.

(** Property access [data.type] / [data.userId] on a parsed value: it
    throws on [null]; primitives and arrays have no property of these
    two names. *)
Definition get_prop (name : string) (data : value) : M jsval :=
  match data with
  | VNull => throw TypeError
  | VObj props => ret (own_prop name props)
  | _ => ret None
  end.

(** What [JSON.parse(message)] did with the frame: it threw, or it
    returned a value. *)
Inductive parse_result :=
| Unparsable
| Parsed (data : value).

Definition JSON_parse (message : parse_result) : M value :=
  match message with
  | Unparsable => throw SyntaxError
  | Parsed data => ret data
  end.

(** The key of [data.userId]; an object or array is a fresh reference. *)
Definition userId_key (userId : jsval) : M key :=
  fun st =>
    match userId with
    | Some (VArr _) | Some (VObj _) =>
        Returned (key_of (allocated st) userId)
                 (mkState (userConnections st) (readyState st) (S (allocated st)) (trace st))
    | _ => Returned (key_of 0 userId) st
    end.

Definition on_message (ws : conn) (message : parse_result) : M unit :=
  try_catch
    (data <- JSON_parse message ;;
     type <- get_prop "type" data ;;
     if strict_eq_str type "AUTH" then
       userId <- get_prop "userId" data ;;
       if truthy userId then
         k <- userId_key userId ;;
         register k ws
       else ret tt
     else ret tt)
    (fun error => console_error "Error parsing WebSocket message:" error).

(** ** The ['close'] handler (lines 326-334)
<<
    userConnections.forEach((connections, userId) => {
      connections.delete(ws);
      if (connections.size === 0) {
        userConnections.delete(userId);
      }
    });
>>
    Every entry is visited once, in insertion order; the callback only
    touches the entry it is called with, and deleting that entry does not
    disturb the iteration. *)
Fixpoint close_entries (ws : conn) (m : registry) : registry :=
  match m with
  | [] => []
  | (userId, connections) :: rest =>
      let connections' := Set_delete ws connections in
      if Nat.eqb (List.length connections') 0
      then close_entries ws rest
      else (userId, connections') :: close_entries ws rest
  end.

Definition on_close (ws : conn) : M unit :=
  m <- get_registry ;;
  put_registry (close_entries ws m).

(** ** [broadcastToUser] (lines 338-348) *)

(** [ws.send(data)] of the ws library: it throws while the socket is
    still CONNECTING, hands the frame to an OPEN socket, and drops it
    (reporting through the optional callback, which this code does not
    pass) once the socket is CLOSING or CLOSED. *)
Definition ws_send (ws : conn) (data : string) : M unit :=
  fun st =>
    match readyState st ws with
    | CONNECTING => Thrown NotOpenError st
    | OPEN => emit (Send ws data) st
    | CLOSING | CLOSED => Returned tt st
    end.

Section Server.

(** [JSON.stringify] on plain data. *)
Variable JSON_stringify : value -> string.

(** [connections.forEach((ws) => { if (ws.readyState === WebSocket.OPEN) ws.send(messageStr) })] *)
Fixpoint forEach_send (messageStr : string) (connections : list conn) : M unit :=
  match connections with
  | [] => ret tt
  | ws :: rest =>
      (fun st =>
         if ready_state_eqb (readyState st ws) OPEN
         then ws_send ws messageStr st
         else ret tt st) ;;
      forEach_send messageStr rest
  end.

Definition broadcastToUser (userId : string) (message : value) : M unit :=
  m <- get_registry ;;
  match Map_get (KStr userId) m with
  | Some connections =>
      (* const messageStr = JSON.stringify(message) *)
      emit (Stringify message) ;;
      let messageStr := JSON_stringify message in
      forEach_send messageStr connections
  | None => ret tt
  end.

(** ** The share route (lines 121-144)

    The schema and the storage layer are collaborators of this code. *)
Variable Body : Type.        (* req.body *)
Variable ShareData : Type.   (* what insertTaskShareSchema.parse returns *)
Variable TaskShare : Type.   (* the row storage.shareTask returns *)

(** [shareData.userId] *)
Variable sd_userId : ShareData -> string.

(** [insertTaskShareSchema.parse({ ...req.body, taskId, sharedById: userId })];
    [None] when it throws. *)
Variable insertTaskShareSchema_parse : Body -> number -> string -> option ShareData.

(** [await storage.shareTask(shareData)]; [None] when it rejects. *)
Variable storage_shareTask : ShareData -> option TaskShare.

Inductive response :=
| Created (taskShare : TaskShare)      (* res.status(201).json(taskShare) *)
| ServerError (message : string).      (* res.status(500).json({ message }) *)

Definition or_throw {A} (e : exn) (o : option A) : M A :=
  match o with Some a => ret a | None => throw e end.

(** The event object of line 134. *)
Definition TASK_SHARED (taskId : number) (sharedBy : string) : value :=
  VObj [("type", VStr "TASK_SHARED");
        ("payload", VObj [("taskId", VNum taskId); ("sharedBy", VStr sharedBy)])].

(** [userId] is [req.user.claims.sub], [taskId] is [parseInt(req.params.id)].
    The handler touches the state only after its one [await]. *)
Definition share_route (userId : string) (taskId : number) (body : Body) : M response :=
  try_catch
    (shareData <- or_throw ZodError (insertTaskShareSchema_parse body taskId userId) ;;
     taskShare <- or_throw StorageError (storage_shareTask shareData) ;;
     broadcastToUser (sd_userId shareData) (TASK_SHARED taskId userId) ;;
     ret (Created taskShare))
    (fun error =>
       console_error "Error sharing task:" error ;;
       ret (ServerError "Failed to share task")).

(** ** Runs *)

(** Registry operations: the AUTH binding of a socket and its removal. *)
Inductive regop :=
| Register (userId : key) (ws : conn)
| Unregister (ws : conn).

Definition apply_op (o : regop) : M unit :=
  match o with
  | Register userId ws => register userId ws
  | Unregister ws => on_close ws
  end.

Fixpoint run_ops (ops : list regop) : M unit :=
  match ops with
  | [] => ret tt
  | o :: rest => apply_op o ;; run_ops rest
  end.

(** What can happen to the server: a frame arrives on a socket, a socket
    closes, a route emits an event, the transport moves a socket to
    another ready state. *)
Inductive event :=
| Message (ws : conn) (message : parse_result)
| Close (ws : conn)
| Emit (userId : string) (message : value)
| Transport (ws : conn) (rs : ready_state).

Definition set_ready (ws : conn) (rs : ready_state) : M unit :=
  fun st => Returned tt
    (mkState (userConnections st)
             (fun c => if Nat.eqb c ws then rs else readyState st c)
             (allocated st) (trace st)).

Definition step (e : event) : M unit :=
  match e with
  | Message ws message => on_message ws message
  | Close ws => on_close ws
  | Emit userId message => broadcastToUser userId message
  | Transport ws rs => set_ready ws rs
  end.

Fixpoint run (es : list event) : M unit :=
  match es with
  | [] => ret tt
  | e :: rest => step e ;; run rest
  end.

(** ** Observations *)

(** What a computation appended to the trace of [st]. *)
Definition emitted {A} (o : outcome A) (st : state) : list action :=
  skipn (List.length (trace st)) (trace (state_of o)).

(** The frames handed to socket [ws], oldest first. *)
Fixpoint sent_to (ws : conn) (acts : list action) : list string :=
  match acts with
  | [] => []
  | Send c data :: rest =>
      if Nat.eqb c ws then data :: sent_to ws rest else sent_to ws rest
  | _ :: rest => sent_to ws rest
  end.

(** How many times [JSON.stringify] was called. *)
Fixpoint stringify_calls (acts : list action) : nat :=
  match acts with
  | [] => 0
  | Stringify _ :: rest => S (stringify_calls rest)
  | _ :: rest => stringify_calls rest
  end.

(** How many console lines were written. *)
Fixpoint console_lines (acts : list action) : nat :=
  match acts with
  | [] => 0
  | ConsoleError _ _ :: rest => S (console_lines rest)
  | _ :: rest => console_lines rest
  end.

Definition is_open (st : state) (ws : conn) : bool :=
  ready_state_eqb (readyState st ws) OPEN.

End Server.

Definition run_state JSON_stringify (es : list event) (st : state) : state :=
  state_of (run JSON_stringify es st).

Definition set_registry (m : registry) (st : state) : state :=
  mkState m (readyState st) (allocated st) (trace st).

Definition add_trace (acts : list action) (st : state) : state :=
  mkState (userConnections st) (readyState st) (allocated st) (trace st ++ acts).

(** The frames one call of [broadcastToUser] hands out: one per open
    socket of the set, in the order of the set. *)
Definition frames (data : string) (st : state) (connections : list conn) : list action :=
  map (fun ws => Send ws data) (filter (is_open st) connections).

(** What one call of [broadcastToUser] appends to the trace. *)
Definition broadcast_actions JSON_stringify (userId : string) (message : value)
    (st : state) : list action :=
  match Map_get (KStr userId) (userConnections st) with
  | Some connections =>
      Stringify message :: frames (JSON_stringify message) st connections
  | None => []
  end.

(** The frames socket [ws] has been handed so far. *)
Definition inbox (ws : conn) (st : state) : list string := sent_to ws (trace st).

(** The frames socket [ws] is handed while [es] runs from [st]. *)
Definition received JSON_stringify (ws : conn) (es : list event) (st : state)
  : list string :=
  sent_to ws (emitted (run JSON_stringify es st) st).

(** [ws] is in the set of [userId]. *)
Definition member (userId : string) (ws : conn) (st : state) : bool :=
  Set_has ws (connectionsFor (KStr userId) (userConnections st)).

(** ** Representation invariants of the registry *)

(** A [Map] holds a key once, a [Set] holds an element once. *)
Definition keys_nodup (m : registry) : Prop := NoDup (map fst m).

Definition sets_nodup (m : registry) : Prop :=
  forall k s, In (k, s) m -> NoDup s.

(** No entry with an empty connection set. *)
Definition no_empty_sets (m : registry) : Prop :=
  forall k s, In (k, s) m -> s <> [].

Definition wf (m : registry) : Prop :=
  keys_nodup m /\ sets_nodup m /\ no_empty_sets m.

(** No socket in the sets of two different identities. *)
Definition exclusive (m : registry) : Prop :=
  forall k1 k2 ws,
    In ws (connectionsFor k1 m) -> In ws (connectionsFor k2 m) -> k1 = k2.

(** The identities socket [ws] is registered under in [ops]. *)
Fixpoint bound_to (ws : conn) (ops : list regop) : list key :=
  match ops with
  | [] => []
  | Register k c :: rest =>
      if Nat.eqb c ws then k :: bound_to ws rest else bound_to ws rest
  | Unregister _ :: rest => bound_to ws rest
  end.

(** Every socket is registered under one identity only. *)
Definition bind_once (ops : list regop) : bool :=
  forallb (fun o => match o with
                    | Register k ws => forallb (key_eqb k) (bound_to ws ops)
                    | Unregister _ => true
                    end) ops.

(** ** Reading the ['message'] handler *)

(** The guard of line 314, [data.type === 'AUTH' && data.userId], on a
    value whose properties can be read. *)
Definition is_auth (data : value) : bool :=
  match data with
  | VObj props =>
      strict_eq_str (own_prop "type" props) "AUTH" && truthy (own_prop "userId" props)
  | _ => false
  end.

(** The frames the handler does not bind on. *)
Definition discarded (message : parse_result) : bool :=
  match message with
  | Unparsable => true
  | Parsed data => negb (is_auth data)
  end.

(** The error the [try] block ends with, if any. *)
Definition parse_error (message : parse_result) : option exn :=
  match message with
  | Unparsable => Some SyntaxError
  | Parsed VNull => Some TypeError
  | Parsed _ => None
  end.

Definition logged (message : parse_result) : list action :=
  match parse_error message with
  | Some e => [ConsoleError "Error parsing WebSocket message:" e]
  | None => []
  end.

(** An AUTH frame [{ type: "AUTH", userId }]. *)
Definition AUTH (userId : string) : parse_result :=
  Parsed (VObj [("type", VStr "AUTH"); ("userId", VStr userId)]).

Definition is_emit (e : event) : bool :=
  match e with Emit _ _ => true | _ => false end.

(** ** The registry contract in the spec's words *)

Fixpoint Map_delete (k : key) (m : registry) : registry :=
  match m with
  | [] => []
  | (k', v) :: rest => if key_eqb k k' then rest else (k', v) :: Map_delete k rest
  end.

(** The spec's reading of [unregister] for a socket that carries the
    identity it was bound to: [ws] is taken out of the set of [bound],
    and the entry is deleted when that empties it.  To be compared with
    [on_close], which the code runs instead. *)
Definition spec_unregister (bound : key) (ws : conn) (m : registry) : registry :=
  match Map_get bound m with
  | Some connections =>
      let connections' := Set_delete ws connections in
      if Nat.eqb (List.length connections') 0
      then Map_delete bound m
      else Map_set bound connections' m
  | None => m
  end.

(** ** Collaborators for the examples *)

Definition show_Z (z : Z) : string := NilZero.string_of_int (Z.to_int z).

Definition dq : string := String (Ascii.ascii_of_nat 34) EmptyString.

(** A serializer to run the examples with: JSON text for values whose
    strings need no escaping and whose numbers are integers. *)
Fixpoint show_value (v : value) : string :=
  match v with
  | VNull => "null"
  | VBool true => "true"
  | VBool false => "false"
  | VNum NaN => "null"
  | VNum (Num z) => show_Z z
  | VStr s => dq ++ s ++ dq
  | VArr items =>
      "[" ++ (fix show_items (l : list value) : string :=
                match l with
                | [] => ""
                | x :: r =>
                    show_value x ++ match r with [] => "" | _ => "," ++ show_items r end
                end) items ++ "]"
  | VObj props =>
      "{" ++ (fix show_props (l : list (string * value)) : string :=
                match l with
                | [] => ""
                | (n, x) :: r =>
                    dq ++ n ++ dq ++ ":" ++ show_value x
                       ++ match r with [] => "" | _ => "," ++ show_props r end
                end) props ++ "}"
  end.

(** A share request that names its recipient in the body; an empty
    recipient is rejected by the schema. *)
Definition example_parse (body : string) (taskId : number) (sharedById : string)
  : option (string * number * string) :=
  if String.eqb body "" then None else Some (body, taskId, sharedById).

Definition example_recipient (shareData : string * number * string) : string :=
  fst (fst shareData).

Definition example_shareTask (shareData : string * number * string) : option nat :=
  Some 1.

Definition all_open : conn -> ready_state := fun _ => OPEN.

(** Sockets 1 and 2 bound to u1 and socket 3 to u2, all open. *)
Definition example_state : state :=
  run_state show_value [Message 1 (AUTH "u1"); Message 2 (AUTH "u1"); Message 3 (AUTH "u2")]
            (init all_open).

(** Socket 1 after an AUTH frame for u1 and another one for u2. *)
Definition twice_bound : state :=
  run_state show_value [Message 1 (AUTH "u1"); Message 1 (AUTH "u2")] (init all_open).

Definition example_event (type : string) (id : Z) : value :=
  VObj [("type", VStr type); ("payload", VObj [("id", VNum (Num id))])].

Definition example_ops : list regop :=
  [Register (KStr "u1") 1; Register (KStr "u1") 2; Register (KStr "u2") 3;
   Unregister 1; Register (KStr "u1") 1].

(** * The other routes and the storage layer *)

(** ** Replies and event objects *)

(** [res.status(status).json(body)] and [res.status(status).json({ message })];
    [res.json(body)] is status 200. *)
Inductive reply (A : Type) :=
| ReplyJson (status : nat) (body : A)
| ReplyMessage (status : nat) (message : string).

Arguments ReplyMessage {A} status message.

(** The object [{ type, payload }] as [JSON.stringify], its only reader,
    sees it: a property whose value is [undefined] is left out. *)
Definition event_object (type : string) (payload : jsval) : value :=
  match payload with
  | Some v => VObj [("type", VStr type); ("payload", v)]
  | None => VObj [("type", VStr type)]
  end.

(** [const [row] = rows] *)
Definition first_row {A} (rows : list A) : option A :=
  match rows with
  | [] => None
  | r :: _ => Some r
  end.

(** ** Queries (storage.ts)

    A query is kept as the calls made on the builder, in order; what the
    database makes of them is the database's. *)
Inductive column := ColDueDate | ColPriority | ColCreatedAt.

Inductive direction := Asc | Desc.

Inductive condition :=
| UserIdIs (userId : string)               (* eq(tasks.userId, userId) *)
| StatusIs (status : string)               (* eq(tasks.status, status) *)
| PriorityIs (priority : string)           (* eq(tasks.priority, priority) *)
| ProjectIdIs (projectId : number)         (* eq(tasks.projectId, projectId) *)
| WorkspaceIdIs (workspaceId : number)     (* eq(tasks.workspaceId, workspaceId) *)
| DueOn (dueDate : string)                 (* and(gte(dueDate, date), lte(dueDate, nextDay)) *)
| SearchMatches (pattern : string)         (* or(title ILIKE pattern, description ILIKE pattern) *)
| CreatedBetween (start finish : Z).       (* and(gte(createdAt, start), lte(createdAt, end)) *)

Record query := mkQuery {
  q_where : list condition;                (* the .where(...) calls *)
  q_orderBy : list (column * direction);   (* the .orderBy(...) calls *)
  q_limit : option number;                 (* the .limit(...) call *)
  q_offset : option number                 (* the .offset(...) call *)
}.

(** [db.select().from(tasks)] *)
Definition select_tasks : query := mkQuery [] [] None None.

Definition where_ (c : condition) (q : query) : query :=
  mkQuery (q_where q ++ [c]) (q_orderBy q) (q_limit q) (q_offset q).

Definition orderBy_ (c : column) (d : direction) (q : query) : query :=
  mkQuery (q_where q) (q_orderBy q ++ [(c, d)]) (q_limit q) (q_offset q).

Definition limit_ (n : number) (q : query) : query :=
  mkQuery (q_where q) (q_orderBy q) (Some n) (q_offset q).

Definition offset_ (n : number) (q : query) : query :=
  mkQuery (q_where q) (q_orderBy q) (q_limit q) (Some n).

(** [TaskFilters]: every field is optional. *)
Record TaskFilters := mkFilters {
  f_status : option string;
  f_priority : option string;
  f_projectId : option number;
  f_workspaceId : option number;
  f_dueDate : option string;
  f_search : option string;
  f_sortBy : option string;
  f_sortOrder : option string;
  f_limit : option number;
  f_offset : option number
}.

(** [filters?.field] *)
Definition field {A} (filters : option TaskFilters) (f : TaskFilters -> option A) : option A :=
  match filters with
  | Some fs => f fs
  | None => None
  end.

(** A string, or a number, where JavaScript takes it for true. *)
Definition truthy_string (o : option string) : option string :=
  match o with
  | Some s => if truthy (Some (VStr s)) then Some s else None
  | None => None
  end.

Definition truthy_number (o : option number) : option number :=
  match o with
  | Some n => if truthy (Some (VNum n)) then Some n else None
  | None => None
  end.

(** [if (value) query = query.where(clause(value))] *)
Definition when_ {A} (o : option A) (f : A -> query -> query) (q : query) : query :=
  match o with
  | Some a => f a q
  | None => q
  end.

(** [x || fallback] on strings *)
Definition or_default (o : option string) (fallback : string) : string :=
  match truthy_string o with
  | Some s => s
  | None => fallback
  end.

(** The query of [getTasks] (storage.ts, lines 130-188), up to its [await]. *)
Definition getTasks_query (userId : string) (filters : option TaskFilters) : query :=
  let query := where_ (UserIdIs userId) select_tasks in
  let query := when_ (truthy_string (field filters f_status))
                     (fun s => where_ (StatusIs s)) query in
  let query := when_ (truthy_string (field filters f_priority))
                     (fun s => where_ (PriorityIs s)) query in
  let query := when_ (truthy_number (field filters f_projectId))
                     (fun n => where_ (ProjectIdIs n)) query in
  let query := when_ (truthy_number (field filters f_workspaceId))
                     (fun n => where_ (WorkspaceIdIs n)) query in
  let query := when_ (truthy_string (field filters f_dueDate))
                     (fun s => where_ (DueOn s)) query in
  let query := when_ (truthy_string (field filters f_search))
                     (fun s => where_ (SearchMatches ("%" ++ s ++ "%"))) query in
  let sortBy := or_default (field filters f_sortBy) "createdAt" in
  let sortOrder := or_default (field filters f_sortOrder) "desc" in
  let dir := if String.eqb sortOrder "asc" then Asc else Desc in
  let query :=
    if String.eqb sortBy "dueDate" then orderBy_ ColDueDate dir query
    else if String.eqb sortBy "priority" then orderBy_ ColPriority dir query
    else orderBy_ ColCreatedAt dir query in
  let query := when_ (truthy_number (field filters f_limit)) limit_ query in
  let query := when_ (truthy_number (field filters f_offset)) offset_ query in
  query.

(** The query of [getTaskStats] (lines 369-376); a date range is an
    object and so always true. *)
Definition getTaskStats_query (userId : string) (dateRange : option (Z * Z)) : query :=
  let query := where_ (UserIdIs userId) select_tasks in
  when_ dateRange (fun r => where_ (CreatedBetween (fst r) (snd r))) query.

(** [{ limit: 10 }] *)
Definition limit_10 : TaskFilters :=
  mkFilters None None None None None None None None (Some (Num 10)) None.

(** The double [(completedTasks / totalTasks) * 100] of line 387, kept as
    its operands, or the literal [0]. *)
Inductive rate :=
| RateZero
| RatePercent (completed total : nat).

Record TaskStatistics := mkStats {
  totalTasks : nat;
  completedTasks : nat;
  inProgressTasks : nat;
  overdueTasks : nat;
  completionRate : rate;
  averageCompletionTime : nat
}.

(** A suggestion object of [generateAISuggestions]. *)
Record suggestion := mkSuggestion {
  s_type : string;
  s_title : string;
  s_description : string;
  s_action : string;
  s_priority : string
}.

(** [`${n}`] for an array length. *)
Definition show_nat (n : nat) : string := NilZero.string_of_uint (Nat.to_uint n).

Section Routes.

Variable JSON_stringify : value -> string.

(** Collaborators: the schema, the rows of the database and the queries
    it runs.  [None] is a rejected promise or a thrown error. *)
Variable Body : Type.          (* req.body *)
Variable InsertTask : Type.    (* what insertTaskSchema.parse returns *)
Variable TaskUpdates : Type.   (* what insertTaskSchema.partial().parse returns *)
Variable Task : Type.          (* a row of the tasks table *)
Variable Template : Type.      (* a row of the task_templates table *)
Variable Stats : Type.         (* a row of the user_stats table *)

Variable task_data : Task -> value.            (* the row as plain data *)
Variable task_status : Task -> option string.  (* task.status *)
Variable task_dueDate : Task -> option Z.      (* task.dueDate, in milliseconds, or null *)

Variable insertTaskSchema_parse : Body -> string -> option InsertTask.
Variable insertTaskSchema_partial_parse : Body -> option TaskUpdates.
Variable db_insert_tasks : InsertTask -> option (list Task).
Variable db_update_tasks : number -> string -> TaskUpdates -> option (list Task).
Variable db_delete_tasks : number -> string -> option nat.     (* result.rowCount *)
Variable db_run : query -> option (list Task).
Variable db_select_templates : string -> option (list Template).
Variable db_select_userStats : string -> option (list Stats).

(** *** storage.ts *)

Definition createTask (task : InsertTask) : M (option Task) :=
  rows <- or_throw StorageError (db_insert_tasks task) ;;
  ret (first_row rows).

Definition updateTask (id : number) (userId : string) (updates : TaskUpdates)
  : M (option Task) :=
  rows <- or_throw StorageError (db_update_tasks id userId updates) ;;
  ret (first_row rows).

Definition deleteTask (id : number) (userId : string) : M bool :=
  rowCount <- or_throw StorageError (db_delete_tasks id userId) ;;
  ret (Nat.ltb 0 rowCount).

Definition getTasks (userId : string) (filters : option TaskFilters) : M (list Task) :=
  or_throw StorageError (db_run (getTasks_query userId filters)).

Definition getTaskTemplates (userId : string) : M (list Template) :=
  or_throw StorageError (db_select_templates userId).

Definition getUserStats (userId : string) : M (option Stats) :=
  rows <- or_throw StorageError (db_select_userStats userId) ;;
  ret (first_row rows).

(** [task.status === s] *)
Definition status_is (task : Task) (s : string) : bool :=
  match task_status task with
  | Some s' => String.eqb s' s
  | None => false
  end.

(** [taskList.filter(task => task.dueDate && task.dueDate < new Date()
    && task.status !== 'completed')].  A [Date] is always true, [null] is
    not; [new Date()] is evaluated for every task that has a due date, and
    [clock n] is the time it reads the n-th time. *)
Fixpoint overdue_from (clock : nat -> Z) (reads : nat) (taskList : list Task) : list Task :=
  match taskList with
  | [] => []
  | task :: rest =>
      match task_dueDate task with
      | None => overdue_from clock reads rest
      | Some dueDate =>
          if Z.ltb dueDate (clock reads) && negb (status_is task "completed")
          then task :: overdue_from clock (S reads) rest
          else overdue_from clock (S reads) rest
      end
  end.

Definition overdue (clock : nat -> Z) (taskList : list Task) : list Task :=
  overdue_from clock 0 taskList.

(** [getTaskStats] (storage.ts, lines 368-397) *)
Definition getTaskStats (clock : nat -> Z) (userId : string) (dateRange : option (Z * Z))
  : M TaskStatistics :=
  taskList <- or_throw StorageError (db_run (getTaskStats_query userId dateRange)) ;;
  let totalTasks := List.length taskList in
  let completedTasks :=
    List.length (filter (fun task => status_is task "completed") taskList) in
  let inProgressTasks :=
    List.length (filter (fun task => status_is task "in_progress") taskList) in
  let overdueTasks := List.length (overdue clock taskList) in
  let completionRate :=
    if Nat.ltb 0 totalTasks then RatePercent completedTasks totalTasks else RateZero in
  ret (mkStats totalTasks completedTasks inProgressTasks overdueTasks completionRate 0).

(** *** The task routes (routes.ts, lines 67-118)

    [userId] is [req.user.claims.sub], [taskId] is [parseInt(req.params.id)]. *)
Definition create_route (userId : string) (body : Body) : M (reply (option Task)) :=
  try_catch
    (taskData <- or_throw ZodError (insertTaskSchema_parse body userId) ;;
     task <- createTask taskData ;;
     broadcastToUser JSON_stringify userId
       (event_object "TASK_CREATED" (option_map task_data task)) ;;
     ret (ReplyJson 201 task))
    (fun error =>
       console_error "Error creating task:" error ;;
       ret (ReplyMessage 500 "Failed to create task")).

Definition update_route (userId : string) (taskId : number) (body : Body)
  : M (reply (option Task)) :=
  try_catch
    (updates <- or_throw ZodError (insertTaskSchema_partial_parse body) ;;
     task <- updateTask taskId userId updates ;;
     broadcastToUser JSON_stringify userId
       (event_object "TASK_UPDATED" (option_map task_data task)) ;;
     ret (ReplyJson 200 task))
    (fun error =>
       console_error "Error updating task:" error ;;
       ret (ReplyMessage 500 "Failed to update task")).

Definition delete_route (userId : string) (taskId : number) : M (reply (option Task)) :=
  try_catch
    (success <- deleteTask taskId userId ;;
     if success then
       broadcastToUser JSON_stringify userId
         (event_object "TASK_DELETED" (Some (VObj [("id", VNum taskId)]))) ;;
       ret (ReplyMessage 200 "Task deleted successfully")
     else ret (ReplyMessage 404 "Task not found"))
    (fun error =>
       console_error "Error deleting task:" error ;;
       ret (ReplyMessage 500 "Failed to delete task")).

(** *** [generateAISuggestions] (routes.ts, lines 351-399) and its route

    [currentHour] is what [new Date().getHours()] returns. *)
Definition overdue_focus (n : nat) : suggestion :=
  mkSuggestion "overdue_focus" "Focus on overdue tasks"
    ("You have " ++ show_nat n
       ++ " overdue tasks. Consider prioritizing these to get back on track.")
    "Show overdue tasks" "high".

Definition optimal_time : suggestion :=
  mkSuggestion "optimal_time" "Peak productivity time"
    "Based on your patterns, you're most productive between 2-4 PM. Consider scheduling important tasks now."
    "Schedule task" "medium".

Definition use_template : suggestion :=
  mkSuggestion "use_template" "Use a task template"
    "You have saved templates that can help you create tasks faster."
    "Browse templates" "low".

Definition generateAISuggestions (clock : nat -> Z) (currentHour : Z) (userId : string)
  : M (list suggestion) :=
  userTasks <- getTasks userId (Some limit_10) ;;
  userStats <- getUserStats userId ;;
  let suggestions : list suggestion := [] in
  let overdueTasks := overdue clock userTasks in
  let suggestions :=
    if Nat.ltb 0 (List.length overdueTasks)
    then (suggestions ++ [overdue_focus (List.length overdueTasks)])%list
    else suggestions in
  let suggestions :=
    if Z.leb 14 currentHour && Z.leb currentHour 16
    then (suggestions ++ [optimal_time])%list
    else suggestions in
  templates <- getTaskTemplates userId ;;
  let suggestions :=
    if Nat.ltb 0 (List.length templates) && Nat.ltb (List.length userTasks) 5
    then (suggestions ++ [use_template])%list
    else suggestions in
  ret suggestions.

Definition suggestions_route (clock : nat -> Z) (currentHour : Z) (userId : string)
  : M (reply (list suggestion)) :=
  try_catch
    (suggestions <- generateAISuggestions clock currentHour userId ;;
     ret (ReplyJson 200 suggestions))
    (fun error =>
       console_error "Error generating AI suggestions:" error ;;
       ret (ReplyMessage 500 "Failed to generate AI suggestions")).

End Routes.

(** A socket that is in no set of the registry. *)
Definition absent (ws : conn) (m : registry) : Prop :=
  forall k s, In (k, s) m -> ~ In ws s.

(** No frame of socket [ws] in [es] passes the guard of the handler. *)
Definition never_binds (ws : conn) (es : list event) : bool :=
  forallb (fun e => match e with
                    | Message c message => negb (Nat.eqb c ws) || discarded message
                    | _ => true
                    end) es.

(** ** More collaborators for the examples *)

(** Rows as (id, status, due date). *)
Definition example_task : Type := Z * option string * option Z.

Definition example_task_data (t : example_task) : value :=
  VObj [("id", VNum (Num (fst (fst t))))].

Definition example_status (t : example_task) : option string := snd (fst t).

Definition example_dueDate (t : example_task) : option Z := snd t.

Definition example_tasks : list example_task :=
  [(1%Z, Some "completed", Some 5%Z); (2%Z, Some "pending", Some 5%Z);
   (3%Z, Some "in_progress", None); (4%Z, Some "pending", Some 500%Z)].

Definition example_clock : nat -> Z := fun _ => 100%Z.

Definition example_task_parse (body userId : string) : option string :=
  if String.eqb body "" then None else Some body.

Definition example_partial_parse (body : string) : option string :=
  if String.eqb body "" then None else Some body.

Definition example_insert (task : string) : option (list example_task) :=
  Some [(9%Z, Some "pending", None)].

(** Only task 1 of user u1 exists. *)
Definition example_update (id : number) (userId updates : string)
  : option (list example_task) :=
  match id with
  | Num 1 => if String.eqb userId "u1" then Some [(1%Z, Some updates, None)] else Some []
  | _ => Some []
  end.

Definition example_delete (id : number) (userId : string) : option nat :=
  match id with
  | Num 1 => if String.eqb userId "u1" then Some 1 else Some 0
  | _ => Some 0
  end.

Definition example_db_run (q : query) : option (list example_task) := Some example_tasks.

Definition example_templates (userId : string) : option (list nat) := Some [1].

Definition example_userStats (userId : string) : option (list nat) := Some [].

(** ** Filters without their false values *)

(** The filters with every value that JavaScript takes for false left out. *)
Definition clean_filters (f : TaskFilters) : TaskFilters :=
  mkFilters (truthy_string (f_status f)) (truthy_string (f_priority f))
            (truthy_number (f_projectId f)) (truthy_number (f_workspaceId f))
            (truthy_string (f_dueDate f)) (truthy_string (f_search f))
            (truthy_string (f_sortBy f)) (truthy_string (f_sortOrder f))
            (truthy_number (f_limit f)) (truthy_number (f_offset f)).

(** [{}] *)
Definition no_filters : TaskFilters :=
  mkFilters None None None None None None None None None None.

Definition is_owner_condition (c : condition) : bool :=
  match c with UserIdIs _ => true | _ => false end.

(** * Properties *)

(** ** Keys, sets and maps *)

Lemma number_eqb_eq (a b : number) : number_eqb a b = true <-> a = b.
Proof.
  destruct a as [|x], b as [|y]; simpl; split; intro H;
    try reflexivity; try discriminate.
  - apply Z.eqb_eq in H. now subst.
  - injection H as ->. apply Z.eqb_refl.
Qed.

Lemma key_eqb_eq (a b : key) : key_eqb a b = true <-> a = b.
Proof.
  destruct a, b; simpl; split; intro H;
    try reflexivity; try discriminate.
  - apply Bool.eqb_prop in H. now subst.
  - injection H as ->. apply Bool.eqb_reflx.
  - apply number_eqb_eq in H. now subst.
  - injection H as ->. now apply number_eqb_eq.
  - apply String.eqb_eq in H. now subst.
  - injection H as ->. apply String.eqb_refl.
  - apply Nat.eqb_eq in H. now subst.
  - injection H as ->. apply Nat.eqb_refl.
Qed.

Lemma key_eqb_refl (k : key) : key_eqb k k = true.
Proof. now apply key_eqb_eq. Qed.

Lemma key_eqb_neq (a b : key) : a <> b -> key_eqb a b = false.
Proof.
  intro H. destruct (key_eqb a b) eqn:E; [|reflexivity].
  apply key_eqb_eq in E. contradiction.
Qed.

Lemma Set_delete_not_In (ws : conn) (s : list conn) : ~ In ws (Set_delete ws s).
Proof.
  unfold Set_delete. intro H. apply filter_In in H as [_ H].
  now rewrite Nat.eqb_refl in H.
Qed.

Lemma Set_delete_In (ws c : conn) (s : list conn) :
  In c (Set_delete ws s) <-> In c s /\ c <> ws.
Proof.
  unfold Set_delete. rewrite filter_In. split; intros [H1 H2]; split; auto.
  - intros ->. now rewrite Nat.eqb_refl in H2.
  - destruct (Nat.eqb ws c) eqn:E; [|reflexivity].
    apply Nat.eqb_eq in E. congruence.
Qed.

Lemma Set_delete_only (ws : conn) (s : list conn) :
  (forall c, In c s -> c = ws) -> Set_delete ws s = [].
Proof.
  intro H. destruct (Set_delete ws s) as [|c r] eqn:E; [reflexivity|].
  assert (Hc : In c (Set_delete ws s)) by (rewrite E; now left).
  apply Set_delete_In in Hc as [Hc Hne]. now apply H in Hc.
Qed.

Lemma Set_has_In (ws : conn) (s : list conn) : Set_has ws s = true <-> In ws s.
Proof.
  unfold Set_has. rewrite existsb_exists. split.
  - intros (c & Hc & E). apply Nat.eqb_eq in E. now subst.
  - intro H. exists ws. split; [assumption | apply Nat.eqb_refl].
Qed.

Lemma Set_add_In (ws c : conn) (s : list conn) :
  In c (Set_add ws s) <-> In c s \/ c = ws.
Proof.
  unfold Set_add. destruct (Set_has ws s) eqn:E.
  - apply Set_has_In in E. split; [now left | intros [H| ->]; assumption].
  - rewrite in_app_iff. simpl. intuition.
Qed.

Lemma Set_add_nonempty (ws : conn) (s : list conn) : Set_add ws s <> [].
Proof.
  intro H. assert (Hin : In ws (Set_add ws s)) by (apply Set_add_In; now right).
  now rewrite H in Hin.
Qed.

Lemma Set_add_NoDup (ws : conn) (s : list conn) : NoDup s -> NoDup (Set_add ws s).
Proof.
  intro H. unfold Set_add. destruct (Set_has ws s) eqn:E; [assumption|].
  apply NoDup_app; [assumption | repeat constructor; intros [] | ].
  intros c Hc [<-|[]]. apply Set_has_In in Hc. congruence.
Qed.

Lemma Set_delete_NoDup (ws : conn) (s : list conn) : NoDup s -> NoDup (Set_delete ws s).
Proof. apply NoDup_filter. Qed.

Lemma Map_get_set (k' k : key) (v : list conn) (m : registry) :
  Map_get k' (Map_set k v m) = if key_eqb k' k then Some v else Map_get k' m.
Proof.
  induction m as [|[k0 v0] m IH]; simpl.
  - destruct (key_eqb k' k); reflexivity.
  - destruct (key_eqb k k0) eqn:E; simpl.
    + apply key_eqb_eq in E. subst k0. destruct (key_eqb k' k); reflexivity.
    + destruct (key_eqb k' k0) eqn:E'; [|exact IH].
      apply key_eqb_eq in E'. subst k0.
      destruct (key_eqb k' k) eqn:E''; [|reflexivity].
      apply key_eqb_eq in E''. subst. rewrite key_eqb_refl in E. discriminate.
Qed.

Lemma Map_set_set (k : key) (v v' : list conn) (m : registry) :
  Map_set k v' (Map_set k v m) = Map_set k v' m.
Proof.
  induction m as [|[k0 v0] m IH]; simpl.
  - now rewrite key_eqb_refl.
  - destruct (key_eqb k k0) eqn:E; simpl; rewrite E; [reflexivity | now rewrite IH].
Qed.

Lemma Map_get_In (k : key) (s : list conn) (m : registry) :
  Map_get k m = Some s -> In (k, s) m.
Proof.
  induction m as [|[k0 v0] m IH]; simpl; [discriminate|].
  destruct (key_eqb k k0) eqn:E.
  - apply key_eqb_eq in E. intros [= ->]. left. now subst.
  - intro H. right. now apply IH.
Qed.

Lemma Map_get_None (k : key) (m : registry) :
  Map_get k m = None -> ~ In k (map fst m).
Proof.
  induction m as [|[k0 v0] m IH]; simpl; [tauto|].
  destruct (key_eqb k k0) eqn:E; [discriminate|].
  intros H [->|Hin]; [now rewrite key_eqb_refl in E | now apply IH].
Qed.

Lemma In_Map_get (k : key) (s : list conn) (m : registry) :
  keys_nodup m -> In (k, s) m -> Map_get k m = Some s.
Proof.
  unfold keys_nodup. induction m as [|[k0 v0] m IH]; simpl; [tauto|].
  intros Hnd [[= -> ->]|Hin].
  - now rewrite key_eqb_refl.
  - apply NoDup_cons_iff in Hnd as [Hnot Hnd].
    destruct (key_eqb k k0) eqn:E; [|now apply IH].
    apply key_eqb_eq in E. subst k0. exfalso. apply Hnot.
    change k with (fst (k, s)). now apply in_map.
Qed.

Lemma Map_set_keys (k : key) (v : list conn) (m : registry) :
  map fst (Map_set k v m) = if Map_has k m then map fst m else (map fst m ++ [k])%list.
Proof.
  unfold Map_has. induction m as [|[k0 v0] m IH]; simpl; [reflexivity|].
  destruct (key_eqb k k0) eqn:E; simpl; [reflexivity|].
  rewrite IH. destruct (Map_get k m); reflexivity.
Qed.

Lemma Map_set_keys_nodup (k : key) (v : list conn) (m : registry) :
  keys_nodup m -> keys_nodup (Map_set k v m).
Proof.
  unfold keys_nodup. intro H. rewrite Map_set_keys. unfold Map_has.
  destruct (Map_get k m) eqn:E; [assumption|].
  apply NoDup_app; [assumption | repeat constructor; intros [] | ].
  intros k' Hk' [<-|[]]. now apply Map_get_None in E.
Qed.

Lemma Map_set_In (k k' : key) (v s : list conn) (m : registry) :
  In (k', s) (Map_set k v m) -> (k' = k /\ s = v) \/ In (k', s) m.
Proof.
  induction m as [|[k0 v0] m IH]; simpl.
  - intros [[= <- <-]|[]]. now left.
  - destruct (key_eqb k k0) eqn:E; simpl.
    + apply key_eqb_eq in E. subst k0.
      intros [[= <- <-]|H]; [now left | right; now right].
    + intros [H|H]; [right; now left|].
      destruct (IH H) as [?|?]; [now left | right; now right].
Qed.

Lemma not_In_Map_get (k : key) (m : registry) :
  ~ In k (map fst m) -> Map_get k m = None.
Proof.
  intro H. destruct (Map_get k m) as [s|] eqn:E; [|reflexivity].
  exfalso. apply H. apply Map_get_In in E.
  change k with (fst (k, s)). now apply in_map.
Qed.

Lemma connectionsFor_In (k : key) (c : conn) (m : registry) :
  In c (connectionsFor k m) -> exists s, In (k, s) m /\ In c s.
Proof.
  unfold connectionsFor. destruct (Map_get k m) as [s|] eqn:E; [|intros []].
  intro H. exists s. split; [now apply Map_get_In | assumption].
Qed.

(** ** The ['close'] handler on the registry *)

Lemma close_entries_In (ws : conn) (k : key) (s' : list conn) (m : registry) :
  In (k, s') (close_entries ws m) <->
  exists s, In (k, s) m /\ s' = Set_delete ws s /\ s' <> [].
Proof.
  induction m as [|[k0 v0] m IH]; simpl.
  - split; [intros [] | intros (s & [] & _)].
  - destruct (Set_delete ws v0) as [|c r] eqn:E; simpl.
    + rewrite IH. split.
      * intros (s & H1 & H2 & H3). exists s. auto.
      * intros (s & [[= -> ->]|H1] & H2 & H3); [congruence|].
        exists s. auto.
    + rewrite IH. split.
      * intros [[= <- <-]|(s & H1 & H2 & H3)].
        -- exists v0. repeat split; auto. discriminate.
        -- exists s. auto.
      * intros (s & [[= -> ->]|H1] & H2 & H3).
        -- left. congruence.
        -- right. exists s. auto.
Qed.

Lemma close_entries_keys (ws : conn) (k : key) (m : registry) :
  In k (map fst (close_entries ws m)) -> In k (map fst m).
Proof.
  induction m as [|[k0 v0] m IH]; simpl; [tauto|].
  destruct (Nat.eqb (List.length (Set_delete ws v0)) 0); simpl; intuition.
Qed.

Lemma close_entries_keys_nodup (ws : conn) (m : registry) :
  keys_nodup m -> keys_nodup (close_entries ws m).
Proof.
  unfold keys_nodup. induction m as [|[k0 v0] m IH]; simpl; [trivial|].
  intro H. apply NoDup_cons_iff in H as [Hnot Hnd].
  destruct (Nat.eqb (List.length (Set_delete ws v0)) 0); simpl; [auto|].
  constructor; [|auto]. intro Hin. apply Hnot. eapply close_entries_keys, Hin.
Qed.

Lemma close_entries_get (ws : conn) (k : key) (m : registry) :
  keys_nodup m ->
  connectionsFor k (close_entries ws m) = Set_delete ws (connectionsFor k m).
Proof.
  unfold keys_nodup, connectionsFor.
  induction m as [|[k0 v0] m IH]; simpl; [reflexivity|].
  intro H. apply NoDup_cons_iff in H as [Hnot Hnd]. specialize (IH Hnd).
  destruct (key_eqb k k0) eqn:Ek.
  - apply key_eqb_eq in Ek. subst k0.
    destruct (Set_delete ws v0) as [|c r] eqn:E; simpl.
    + rewrite IH, (not_In_Map_get _ _ Hnot). reflexivity.
    + now rewrite key_eqb_refl.
  - destruct (Nat.eqb (List.length (Set_delete ws v0)) 0); simpl;
      [|rewrite Ek]; exact IH.
Qed.

Lemma close_entries_removes (ws : conn) (k : key) (m : registry) :
  ~ In ws (connectionsFor k (close_entries ws m)).
Proof.
  intro H. apply connectionsFor_In in H as (s & Hs & Hin).
  apply close_entries_In in Hs as (s0 & _ & -> & _).
  now apply Set_delete_not_In in Hin.
Qed.

Lemma close_entries_wf (ws : conn) (m : registry) : wf m -> wf (close_entries ws m).
Proof.
  intros (Hk & Hs & He). repeat split.
  - now apply close_entries_keys_nodup.
  - intros k s H. apply close_entries_In in H as (s0 & H0 & -> & _).
    apply Set_delete_NoDup. eapply Hs, H0.
  - intros k s H. now apply close_entries_In in H as (s0 & _ & _ & Hne).
Qed.

Lemma on_close_spec (ws : conn) (st : state) :
  on_close ws st = Returned tt (set_registry (close_entries ws (userConnections st)) st).
Proof. reflexivity. Qed.

(** ** Lines 316-319 on the registry *)

Lemma register_spec (k : key) (ws : conn) (st : state) :
  register k ws st =
  Returned tt
    (set_registry
       (Map_set k (Set_add ws (connectionsFor k (userConnections st))) (userConnections st))
       st).
Proof.
  unfold register, bind, get_registry, put_registry, ret, connectionsFor, Map_has.
  destruct (Map_get k (userConnections st)) as [s|] eqn:E; cbn.
  - rewrite E. reflexivity.
  - rewrite Map_get_set, key_eqb_refl, Map_set_set. reflexivity.
Qed.

Lemma register_wf (k : key) (ws : conn) (m : registry) :
  wf m -> wf (Map_set k (Set_add ws (connectionsFor k m)) m).
Proof.
  intros (Hk & Hs & He). repeat split.
  - now apply Map_set_keys_nodup.
  - intros k' s H. apply Map_set_In in H as [[-> ->]|H]; [|eapply Hs, H].
    apply Set_add_NoDup. unfold connectionsFor.
    destruct (Map_get k m) as [s0|] eqn:E; [|constructor].
    eapply Hs, Map_get_In, E.
  - intros k' s H. apply Map_set_In in H as [[-> ->]|H]; [|eapply He, H].
    apply Set_add_nonempty.
Qed.

Lemma register_connectionsFor (k k' : key) (ws : conn) (m : registry) :
  connectionsFor k' (Map_set k (Set_add ws (connectionsFor k m)) m) =
  if key_eqb k' k then Set_add ws (connectionsFor k m) else connectionsFor k' m.
Proof.
  unfold connectionsFor at 1. rewrite Map_get_set.
  destruct (key_eqb k' k); reflexivity.
Qed.

Lemma wf_nil : wf [].
Proof. repeat split; [constructor | intros k s [] | intros k s []]. Qed.

Lemma apply_op_spec (o : regop) (st : state) :
  exists m, apply_op o st = Returned tt (set_registry m st) /\
            (wf (userConnections st) -> wf m).
Proof.
  destruct o as [k ws|ws]; simpl.
  - rewrite register_spec. eexists. split; [reflexivity | apply register_wf].
  - rewrite on_close_spec. eexists. split; [reflexivity | apply close_entries_wf].
Qed.

Lemma run_ops_spec (ops : list regop) (st : state) :
  exists m, run_ops ops st = Returned tt (set_registry m st) /\
            (wf (userConnections st) -> wf m).
Proof.
  revert st. induction ops as [|o ops IH]; intro st; simpl.
  - exists (userConnections st). split; [destruct st; reflexivity | trivial].
  - unfold bind. destruct (apply_op_spec o st) as (m1 & -> & Hwf1).
    destruct (IH (set_registry m1 st)) as (m2 & -> & Hwf2).
    exists m2. split; [reflexivity | auto].
Qed.

Lemma run_ops_init (ops : list regop) (rs : conn -> ready_state) :
  exists m, run_ops ops (init rs) = Returned tt (set_registry m (init rs)) /\ wf m.
Proof.
  destruct (run_ops_spec ops (init rs)) as (m & E & Hwf).
  exists m. split; [exact E | apply Hwf, wf_nil].
Qed.

Lemma wf_has_iff (m : registry) (k : key) :
  wf m -> (Map_has k m = true <-> connectionsFor k m <> []).
Proof.
  intros (_ & _ & He). unfold Map_has, connectionsFor.
  destruct (Map_get k m) as [s|] eqn:E.
  - split; [intros _ | reflexivity]. eapply He, Map_get_In, E.
  - split; [discriminate | congruence].
Qed.

(** ** Registry invariants *)

(** C3: whatever registrations and closes have run since the server
    started, no entry of the registry holds an empty set, so [has] answers
    exactly whether an identity has connections; closing the only
    connection(s) of an identity deletes its entry in that same handler. *)
Theorem no_stale_entries (ops : list regop) (rs : conn -> ready_state) :
  exists st,
    run_ops ops (init rs) = Returned tt st /\
    no_empty_sets (userConnections st) /\
    (forall k, Map_has k (userConnections st) = true <->
               connectionsFor k (userConnections st) <> []) /\
    (forall ws k,
        (forall c, In c (connectionsFor k (userConnections st)) -> c = ws) ->
        Map_has k (userConnections (state_of (on_close ws st))) = false).
Proof.
  destruct (run_ops_init ops rs) as (m & E & Hwf).
  exists (set_registry m (init rs)). split; [exact E|]. simpl.
  split; [apply Hwf|]. split; [intro k; now apply wf_has_iff|].
  intros ws k Honly.
  pose proof (close_entries_wf ws Hwf) as Hwf'.
  destruct (Map_has k (close_entries ws m)) eqn:Eh; [|reflexivity].
  apply (wf_has_iff k Hwf') in Eh. exfalso. apply Eh.
  rewrite close_entries_get by apply Hwf.
  now apply Set_delete_only.
Qed.

Lemma register_then_close (k : key) (ws : conn) (st : state) :
  wf (userConnections st) ->
  (forall c, In c (connectionsFor k (userConnections st)) -> c = ws) ->
  exists st',
    (register k ws ;; on_close ws) st = Returned tt st' /\
    connectionsFor k (userConnections st') = [] /\
    Map_has k (userConnections st') = false.
Proof.
  intros Hwf Honly. unfold bind. rewrite register_spec, on_close_spec. simpl.
  eexists. split; [reflexivity|]. simpl.
  pose proof (register_wf k ws Hwf) as Hwf1.
  assert (E : connectionsFor k
                (close_entries ws
                   (Map_set k (Set_add ws (connectionsFor k (userConnections st)))
                            (userConnections st))) = []).
  { rewrite close_entries_get by apply Hwf1.
    rewrite register_connectionsFor, key_eqb_refl.
    apply Set_delete_only. intros c Hc.
    apply Set_add_In in Hc as [Hc|Hc]; auto. }
  split; [exact E|].
  pose proof (close_entries_wf ws Hwf1) as Hwf2.
  destruct (Map_has k _) eqn:Eh; [|reflexivity].
  apply (wf_has_iff k Hwf2) in Eh. contradiction.
Qed.

(** C4: on the fresh registry, registering [ws] under identity [k] and
    then closing [ws] leaves [k] without connections and without an entry;
    the same holds after any run of registrations and closes that leaves
    [k] with no connection other than [ws]. *)
Theorem register_then_unregister (rs : conn -> ready_state) (k : key) (ws : conn) :
  (exists st',
      (register k ws ;; on_close ws) (init rs) = Returned tt st' /\
      connectionsFor k (userConnections st') = [] /\
      Map_has k (userConnections st') = false) /\
  (forall ops,
      (forall c, In c (connectionsFor k (userConnections (state_of (run_ops ops (init rs)))))
                 -> c = ws) ->
      exists st',
        (register k ws ;; on_close ws) (state_of (run_ops ops (init rs))) = Returned tt st' /\
        connectionsFor k (userConnections st') = [] /\
        Map_has k (userConnections st') = false).
Proof.
  split.
  - apply register_then_close; [apply wf_nil | intros c []].
  - intros ops. destruct (run_ops_init ops rs) as (m & -> & Hwf). simpl.
    intro Honly. now apply register_then_close.
Qed.

Lemma bound_to_In (ws : conn) (k : key) (ops : list regop) :
  In k (bound_to ws ops) <-> In (Register k ws) ops.
Proof.
  induction ops as [|[k0 c|c] ops IH]; simpl; [tauto| |].
  - destruct (Nat.eqb c ws) eqn:E.
    + apply Nat.eqb_eq in E. subst c. simpl. rewrite IH. split.
      * intros [->|H]; auto.
      * intros [[= ->]|H]; auto.
    + rewrite IH. split; [auto|]. intros [[= -> ->]|H]; [|assumption].
      now rewrite Nat.eqb_refl in E.
  - rewrite IH. split; [auto|]. intros [H|H]; [discriminate | assumption].
Qed.

Lemma bind_once_unique (ops : list regop) (ws : conn) (k1 k2 : key) :
  bind_once ops = true ->
  In k1 (bound_to ws ops) -> In k2 (bound_to ws ops) -> k1 = k2.
Proof.
  unfold bind_once. rewrite forallb_forall. intros H H1 H2.
  apply bound_to_In in H1. specialize (H _ H1). simpl in H.
  rewrite forallb_forall in H. now apply key_eqb_eq, H.
Qed.

(** A socket found in a set after a run was there before, or one of the
    operations registered it under that identity. *)
Lemma run_ops_membership (ops : list regop) (st : state) (m : registry) :
  wf (userConnections st) ->
  run_ops ops st = Returned tt (set_registry m st) ->
  forall k c, In c (connectionsFor k m) ->
              In c (connectionsFor k (userConnections st)) \/ In k (bound_to c ops).
Proof.
  revert st. induction ops as [|o ops IH]; intros st Hwf E k c Hin.
  - simpl in E. injection E as E. apply (f_equal userConnections) in E.
    simpl in E. left. now rewrite E.
  - simpl in E. unfold bind in E.
    destruct (apply_op_spec o st) as (m1 & E1 & Hwf1).
    rewrite E1 in E. specialize (Hwf1 Hwf).
    destruct (IH (set_registry m1 st) Hwf1 E k c Hin) as [H|H].
    + simpl in H. destruct o as [k0 ws|ws]; simpl in E1.
      * rewrite register_spec in E1. injection E1 as E1. subst m1.
        rewrite register_connectionsFor in H.
        destruct (key_eqb k k0) eqn:Ek; [|now left].
        apply key_eqb_eq in Ek. subst k0.
        apply Set_add_In in H as [H| ->]; [now left|].
        right. simpl. rewrite Nat.eqb_refl. now left.
      * rewrite on_close_spec in E1. injection E1 as E1. subst m1.
        rewrite close_entries_get in H by apply Hwf.
        apply Set_delete_In in H as [H _]. now left.
    + right. destruct o as [k0 ws|ws]; simpl; [|assumption].
      destruct (Nat.eqb ws c); [now right | assumption].
Qed.

(** C2, as the code has it: when every socket is registered under one
    identity only, no socket is ever in the sets of two identities.  The
    handler itself does not refuse a second AUTH under another identity. *)
Theorem bind_once_exclusive (ops : list regop) (rs : conn -> ready_state) :
  bind_once ops = true ->
  exists st, run_ops ops (init rs) = Returned tt st /\ exclusive (userConnections st).
Proof.
  intro Hb. destruct (run_ops_init ops rs) as (m & E & Hwf).
  exists (set_registry m (init rs)). split; [exact E|]. simpl.
  intros k1 k2 ws H1 H2.
  destruct (@run_ops_membership ops (init rs) m wf_nil E k1 ws H1) as [[]|B1].
  destruct (@run_ops_membership ops (init rs) m wf_nil E k2 ws H2) as [[]|B2].
  eapply bind_once_unique; eassumption.
Qed.

(** ** Traces *)

Lemma add_trace_nil (st : state) : add_trace [] st = st.
Proof. destruct st. unfold add_trace. simpl. now rewrite app_nil_r. Qed.

Lemma add_trace_add_trace (a b : list action) (st : state) :
  add_trace b (add_trace a st) = add_trace (a ++ b) st.
Proof. unfold add_trace. simpl. now rewrite app_assoc. Qed.

Lemma emitted_add_trace {A} (a : A) (acts : list action) (st : state) :
  emitted (Returned a (add_trace acts st)) st = acts.
Proof.
  unfold emitted. simpl. rewrite skipn_app, skipn_all, Nat.sub_diag. reflexivity.
Qed.

Lemma sent_to_app (ws : conn) (a b : list action) :
  sent_to ws (a ++ b) = (sent_to ws a ++ sent_to ws b)%list.
Proof.
  induction a as [|[l e|v|c d] a IH]; simpl; auto.
  destruct (Nat.eqb c ws); simpl; now rewrite IH.
Qed.

Lemma sent_to_none (ws : conn) (acts : list action) :
  (forall d, ~ In (Send ws d) acts) -> sent_to ws acts = [].
Proof.
  induction acts as [|[l e|v|c d] acts IH]; simpl; intro H; auto.
  - apply IH. intros d' Hd. apply (H d'). now right.
  - apply IH. intros d' Hd. apply (H d'). now right.
  - destruct (Nat.eqb c ws) eqn:E.
    + apply Nat.eqb_eq in E. subst c. exfalso. apply (H d). now left.
    + apply IH. intros d' Hd. apply (H d'). now right.
Qed.

Lemma sent_to_In (ws : conn) (d : string) (acts : list action) :
  In d (sent_to ws acts) <-> In (Send ws d) acts.
Proof.
  induction acts as [|[l e|v|c d'] acts IH]; simpl; [tauto| | |].
  - rewrite IH. split; [auto | intros [H|H]; [discriminate | assumption]].
  - rewrite IH. split; [auto | intros [H|H]; [discriminate | assumption]].
  - destruct (Nat.eqb c ws) eqn:E.
    + apply Nat.eqb_eq in E. subst c. simpl. rewrite IH. split.
      * intros [->|H]; auto.
      * intros [[= ->]|H]; auto.
    + rewrite IH. split; [auto|]. intros [[= -> ->]|H]; [|assumption].
      now rewrite Nat.eqb_refl in E.
Qed.

Lemma ready_state_eqb_eq (a b : ready_state) : ready_state_eqb a b = true <-> a = b.
Proof. destruct a, b; simpl; split; intro H; try reflexivity; discriminate. Qed.

Lemma In_frames (ws : conn) (d data : string) (st : state) (connections : list conn) :
  In (Send ws d) (frames data st connections) <->
  d = data /\ In ws connections /\ is_open st ws = true.
Proof.
  unfold frames. rewrite in_map_iff. split.
  - intros (c & [= -> ->] & H). apply filter_In in H. tauto.
  - intros (-> & H1 & H2). exists ws. split; [reflexivity|].
    apply filter_In. tauto.
Qed.

Lemma frames_stringify_calls (data : string) (st : state) (connections : list conn) :
  stringify_calls (frames data st connections) = 0.
Proof.
  unfold frames. induction (filter (is_open st) connections); simpl; auto.
Qed.

(** A duplicate-free set gives every open member one frame. *)
Lemma sent_to_frames (ws : conn) (data : string) (st : state) (connections : list conn) :
  NoDup connections ->
  sent_to ws (frames data st connections) =
  if Set_has ws connections && is_open st ws then [data] else [].
Proof.
  unfold frames. induction connections as [|c r IH]; simpl; [reflexivity|].
  intro H. apply NoDup_cons_iff in H as [Hnot Hnd]. specialize (IH Hnd).
  unfold Set_has in *. simpl. destruct (Nat.eqb ws c) eqn:E.
  - apply Nat.eqb_eq in E. subst c. simpl.
    assert (Hr : sent_to ws (map (fun ws0 => Send ws0 data) (filter (is_open st) r)) = []).
    { apply sent_to_none. intros d Hd. apply in_map_iff in Hd as (c & [= -> _] & Hc).
      apply filter_In in Hc. tauto. }
    destruct (is_open st ws); simpl; [|exact Hr].
    now rewrite Nat.eqb_refl, Hr.
  - simpl. destruct (is_open st c); simpl; [|exact IH].
    rewrite Nat.eqb_sym, E. exact IH.
Qed.

(** ** [broadcastToUser] in closed form *)

Section Broadcast.

Variable JSON_stringify : value -> string.

Lemma forEach_send_spec (data : string) (connections : list conn) (st : state) :
  forEach_send data connections st =
  Returned tt (add_trace (frames data st connections) st).
Proof.
  revert st. induction connections as [|ws rest IH]; intro st; simpl.
  - unfold ret. now rewrite add_trace_nil.
  - unfold bind, frames. simpl. unfold is_open at 1.
    destruct (ready_state_eqb (readyState st ws) OPEN) eqn:E.
    + unfold ws_send. apply ready_state_eqb_eq in E. rewrite E.
      unfold emit. fold (add_trace [Send ws data] st).
      rewrite IH, add_trace_add_trace. reflexivity.
    + unfold ret. apply IH.
Qed.

Lemma broadcastToUser_spec (userId : string) (message : value) (st : state) :
  broadcastToUser JSON_stringify userId message st =
  Returned tt (add_trace (broadcast_actions JSON_stringify userId message st) st).
Proof.
  unfold broadcastToUser, broadcast_actions, bind, get_registry.
  destruct (Map_get (KStr userId) (userConnections st)) as [connections|].
  - unfold emit. fold (add_trace [Stringify message] st).
    rewrite forEach_send_spec, add_trace_add_trace. reflexivity.
  - unfold ret. now rewrite add_trace_nil.
Qed.

Lemma broadcast_emitted (userId : string) (message : value) (st : state) :
  emitted (broadcastToUser JSON_stringify userId message st) st =
  broadcast_actions JSON_stringify userId message st.
Proof. rewrite broadcastToUser_spec. apply emitted_add_trace. Qed.

Lemma In_broadcast_actions (ws : conn) (d : string) (userId : string)
    (message : value) (st : state) :
  In (Send ws d) (broadcast_actions JSON_stringify userId message st) <->
  d = JSON_stringify message /\
  In ws (connectionsFor (KStr userId) (userConnections st)) /\
  is_open st ws = true.
Proof.
  unfold broadcast_actions, connectionsFor.
  destruct (Map_get (KStr userId) (userConnections st)) as [connections|]; simpl.
  - rewrite In_frames. split; [intros [H|H]; [discriminate | exact H] | auto].
  - tauto.
Qed.

End Broadcast.

(** ** What a broadcast delivers *)

Section Delivery.

Variable JSON_stringify : value -> string.

(** C1, as the code has it: [broadcastToUser] calls [JSON.stringify] once
    when the identity has an entry in the registry and not at all when it
    has none; every open socket of that entry is handed the one string it
    produced, nothing else is handed to any socket, and a socket outside
    the identity's set is handed nothing.  With duplicate-free sets a
    member gets exactly one frame. *)
Theorem broadcast_delivery (userId : string) (message : value) (st : state) :
  let m := userConnections st in
  let new := emitted (broadcastToUser JSON_stringify userId message st) st in
  broadcastToUser JSON_stringify userId message st = Returned tt (add_trace new st) /\
  stringify_calls new = (if Map_has (KStr userId) m then 1 else 0) /\
  (forall ws, In ws (connectionsFor (KStr userId) m) -> is_open st ws = true ->
              In (Send ws (JSON_stringify message)) new) /\
  (forall ws data, In (Send ws data) new ->
                   data = JSON_stringify message /\
                   In ws (connectionsFor (KStr userId) m) /\
                   is_open st ws = true) /\
  (forall ws, ~ In ws (connectionsFor (KStr userId) m) -> sent_to ws new = []) /\
  (forall ws, NoDup (connectionsFor (KStr userId) m) ->
              sent_to ws new =
              if Set_has ws (connectionsFor (KStr userId) m) && is_open st ws
              then [JSON_stringify message] else []).
Proof.
  intros m new. subst new. rewrite broadcast_emitted.
  split; [apply broadcastToUser_spec|].
  split.
  { unfold broadcast_actions, Map_has. fold m.
    destruct (Map_get (KStr userId) m); simpl; [|reflexivity].
    now rewrite frames_stringify_calls. }
  split.
  { intros ws Hin Hopen. apply In_broadcast_actions. auto. }
  split.
  { intros ws data H. now apply In_broadcast_actions in H. }
  split.
  { intros ws Hnot. apply sent_to_none. intros d H.
    apply In_broadcast_actions in H. tauto. }
  intros ws Hnd. unfold broadcast_actions, connectionsFor in *. fold m in Hnd |- *.
  destruct (Map_get (KStr userId) m) as [connections|]; simpl; [|reflexivity].
  now apply sent_to_frames.
Qed.

(** C5: [broadcastToUser] always returns; a socket that is not open is
    handed nothing; for an identity without connections nothing is handed
    to anyone, and without an entry the call changes nothing at all. *)
Theorem broadcast_never_throws (userId : string) (message : value) (st : state) :
  let m := userConnections st in
  let new := emitted (broadcastToUser JSON_stringify userId message st) st in
  (exists st', broadcastToUser JSON_stringify userId message st = Returned tt st') /\
  (forall ws, is_open st ws = false -> sent_to ws new = []) /\
  (connectionsFor (KStr userId) m = [] -> forall ws, sent_to ws new = []) /\
  (Map_has (KStr userId) m = false ->
   broadcastToUser JSON_stringify userId message st = Returned tt st).
Proof.
  intros m new. subst new. rewrite broadcast_emitted.
  split; [eexists; apply broadcastToUser_spec|].
  split.
  { intros ws Hclosed. apply sent_to_none. intros d H.
    apply In_broadcast_actions in H. destruct H as (_ & _ & H). congruence. }
  split.
  { intros Hempty ws. apply sent_to_none. intros d H.
    apply In_broadcast_actions in H. destruct H as (_ & H & _).
    fold m in H. now rewrite Hempty in H. }
  intro Hno. rewrite broadcastToUser_spec. unfold broadcast_actions, Map_has in *.
  fold m. destruct (Map_get (KStr userId) m); [discriminate|].
  now rewrite add_trace_nil.
Qed.

(** C10: a broadcast leaves the registry as it found it, whatever the
    ready states of the sockets it meets. *)
Theorem broadcast_preserves_registry (userId : string) (message : value) (st : state) :
  userConnections (state_of (broadcastToUser JSON_stringify userId message st)) =
  userConnections st /\
  forall k, connectionsFor k (userConnections
                                (state_of (broadcastToUser JSON_stringify userId message st))) =
            connectionsFor k (userConnections st).
Proof.
  rewrite broadcastToUser_spec. simpl. split; reflexivity.
Qed.

End Delivery.

(** The guard of [broadcastToUser] is what keeps [ws.send] from throwing. *)
Remark ws_send_connecting_throws (ws : conn) (data : string) (st : state) :
  readyState st ws = CONNECTING -> ws_send ws data st = Thrown NotOpenError st.
Proof. intro H. unfold ws_send. now rewrite H. Qed.

(** ** The ['message'] handler *)

#[local] Arguments register : simpl never.

Lemma on_message_discarded (ws : conn) (message : parse_result) (st : state) :
  discarded message = true ->
  on_message ws message st = Returned tt (add_trace (logged message) st).
Proof.
  destruct message as [|data]; simpl; intro H.
  - reflexivity.
  - destruct data; try (cbn; now rewrite add_trace_nil); [reflexivity|].
    unfold on_message, try_catch, bind. cbn.
    simpl in H. apply negb_true_iff, andb_false_iff in H.
    destruct (strict_eq_str (own_prop "type" props) "AUTH") eqn:Et;
      [|cbn; now rewrite add_trace_nil].
    destruct H as [H|H]; [discriminate|]. cbn. rewrite H. cbn.
    now rewrite add_trace_nil.
Qed.

Lemma on_message_auth (ws : conn) (props : list (string * value)) (st : state) :
  is_auth (VObj props) = true ->
  exists st1,
    userId_key (own_prop "userId" props) st = Returned (key_of (allocated st) (own_prop "userId" props)) st1 /\
    userConnections st1 = userConnections st /\
    readyState st1 = readyState st /\
    trace st1 = trace st /\
    on_message ws (Parsed (VObj props)) st =
    register (key_of (allocated st) (own_prop "userId" props)) ws st1.
Proof.
  simpl. intro H. apply andb_true_iff in H as [Ht Hu].
  unfold on_message, try_catch, bind. cbn. rewrite Ht. cbn. rewrite Hu.
  destruct (own_prop "userId" props) as [[]|]; try discriminate Hu; cbn.
  all: eexists; (split; [reflexivity|]).
  all: rewrite !register_spec; cbn; auto.
Qed.

(** C7, as the code has it: a frame that [JSON.parse] rejects, or whose
    value does not pass the guard [data.type === 'AUTH' && data.userId],
    is dropped without an exception leaving the handler; the registry
    and the sockets are as before.  A console line is written when
    parsing threw or the value was [null], and only then. *)
Theorem discarded_message (ws : conn) (message : parse_result) (st : state) :
  discarded message = true ->
  exists st',
    on_message ws message st = Returned tt st' /\
    userConnections st' = userConnections st /\
    readyState st' = readyState st /\
    trace st' = (trace st ++ logged message)%list /\
    (console_lines (logged message) = 1 <-> parse_error message <> None).
Proof.
  intro H. exists (add_trace (logged message) st).
  split; [now apply on_message_discarded|]. simpl. repeat split.
  - unfold logged. destruct (parse_error message); [discriminate | discriminate].
  - unfold logged. destruct (parse_error message); [reflexivity | congruence].
Qed.

(** C6, as the code has it: an AUTH frame with a non-empty string
    [userId] runs the registration of lines 316-319 for that identity and
    this socket, and nothing else: no other entry, no socket and no
    output changes, and nothing is noted on the socket.  The ['close']
    handler needs no such note: it goes through every entry and takes the
    socket out of each set. *)
Theorem auth_registers
    (ws : conn) (props : list (string * value)) (userId : string) (st : state) :
  own_prop "type" props = Some (VStr "AUTH") ->
  own_prop "userId" props = Some (VStr userId) ->
  userId <> "" ->
  on_message ws (Parsed (VObj props)) st = register (KStr userId) ws st /\
  exists st',
    on_message ws (Parsed (VObj props)) st = Returned tt st' /\
    In ws (connectionsFor (KStr userId) (userConnections st')) /\
    (forall k, k <> KStr userId ->
               connectionsFor k (userConnections st') = connectionsFor k (userConnections st)) /\
    readyState st' = readyState st /\
    allocated st' = allocated st /\
    trace st' = trace st /\
    (forall st2 k,
        on_close ws st2 = Returned tt (set_registry (close_entries ws (userConnections st2)) st2) /\
        ~ In ws (connectionsFor k (close_entries ws (userConnections st2)))).
Proof.
  intros Ht Hu Hne.
  assert (E : on_message ws (Parsed (VObj props)) st = register (KStr userId) ws st).
  { unfold on_message, try_catch, bind. cbn. rewrite Ht. cbn. rewrite Hu. cbn.
    apply String.eqb_neq in Hne. rewrite Hne. cbn.
    rewrite register_spec. reflexivity. }
  split; [exact E|]. rewrite E, register_spec.
  eexists. split; [reflexivity|]. cbn. repeat split.
  - rewrite register_connectionsFor, key_eqb_refl. apply Set_add_In. now right.
  - intros k Hk. rewrite register_connectionsFor.
    now rewrite (key_eqb_neq Hk).
  - apply close_entries_removes.
Qed.

(** Where a socket is in the set of one identity only, the scan of the
    ['close'] handler and the spec's removal by bound identity agree. *)
Lemma Set_delete_absent (ws : conn) (s : list conn) : ~ In ws s -> Set_delete ws s = s.
Proof.
  intro H. unfold Set_delete. induction s as [|c r IH]; simpl; [reflexivity|].
  destruct (Nat.eqb ws c) eqn:E.
  - apply Nat.eqb_eq in E. subst c. exfalso. apply H. now left.
  - simpl. f_equal. apply IH. intro Hr. apply H. now right.
Qed.

Lemma close_entries_untouched (ws : conn) (m : registry) :
  (forall k s, In (k, s) m -> ~ In ws s /\ s <> []) -> close_entries ws m = m.
Proof.
  induction m as [|[k0 v0] m IH]; simpl; intro H; [reflexivity|].
  destruct (H k0 v0 (or_introl eq_refl)) as [Hnot Hne].
  rewrite (Set_delete_absent _ _ Hnot).
  destruct v0 as [|c r]; [congruence|]. simpl. f_equal.
  apply IH. intros k s Hin. apply (H k s). now right.
Qed.

Lemma close_agrees_with_spec_unregister (bound : key) (ws : conn) (m : registry) :
  keys_nodup m -> no_empty_sets m ->
  (forall k s, In (k, s) m -> In ws s -> k = bound) ->
  close_entries ws m = spec_unregister bound ws m.
Proof.
  unfold keys_nodup, spec_unregister.
  induction m as [|[k0 v0] m IH]; intros Hnd Hne Hone; [reflexivity|].
  simpl in Hnd. apply NoDup_cons_iff in Hnd as [Hnot Hnd].
  assert (Hne' : no_empty_sets m) by (intros k s H; apply (Hne k s); now right).
  assert (Hone' : forall k s, In (k, s) m -> In ws s -> k = bound)
    by (intros k s H; apply (Hone k s); now right).
  simpl. destruct (key_eqb bound k0) eqn:Ek.
  - apply key_eqb_eq in Ek. subst k0.
    assert (Hrest : close_entries ws m = m).
    { apply close_entries_untouched. intros k s Hin. split.
      - intro Hws. apply Hnot. rewrite <- (Hone' k s Hin Hws).
        change k with (fst (k, s)). now apply in_map.
      - now apply (Hne' k s). }
    rewrite Hrest.
    destruct (Nat.eqb (List.length (Set_delete ws v0)) 0); reflexivity.
  - assert (Hv : Set_delete ws v0 = v0).
    { apply Set_delete_absent. intro Hws.
      rewrite (Hone k0 v0 (or_introl eq_refl) Hws), key_eqb_refl in Ek. discriminate. }
    rewrite Hv. destruct v0 as [|c r]; [exfalso; now apply (Hne k0 [] (or_introl eq_refl))|].
    simpl. rewrite (IH Hnd Hne' Hone').
    destruct (Map_get bound m) as [s|]; [|reflexivity].
    destruct (Nat.eqb (List.length (Set_delete ws s)) 0); simpl;
      rewrite ?Ek; reflexivity.
Qed.

(** ** Runs of the server *)

Lemma emitted_of_trace {A} (a : A) (acts : list action) (st st' : state) :
  trace st' = (trace st ++ acts)%list -> emitted (Returned a st') st = acts.
Proof.
  intro H. unfold emitted. simpl. rewrite H.
  rewrite skipn_app, skipn_all, Nat.sub_diag. reflexivity.
Qed.

Lemma logged_sends_nothing (ws : conn) (message : parse_result) :
  sent_to ws (logged message) = [].
Proof. unfold logged. destruct (parse_error message); reflexivity. Qed.

Section Runs.

Variable JSON_stringify : value -> string.

Local Abbreviation step := (step JSON_stringify).
Local Abbreviation run := (run JSON_stringify).
Local Abbreviation run_state := (run_state JSON_stringify).
Local Abbreviation received := (received JSON_stringify).
Local Abbreviation broadcastToUser := (broadcastToUser JSON_stringify).

Lemma step_shape (e : event) (st : state) :
  exists st' acts,
    step e st = Returned tt st' /\
    trace st' = (trace st ++ acts)%list /\
    (wf (userConnections st) -> wf (userConnections st')) /\
    (is_emit e = false -> forall ws, sent_to ws acts = []).
Proof.
  destruct e as [ws message|ws|userId message|ws rs]; simpl.
  - destruct (discarded message) eqn:Ed.
    + exists (add_trace (logged message) st), (logged message).
      split; [now apply on_message_discarded|].
      split; [reflexivity|]. split; [trivial|].
      intros _ c. apply logged_sends_nothing.
    + destruct message as [|data]; [discriminate|].
      simpl in Ed. apply negb_false_iff in Ed.
      destruct data; try discriminate Ed.
      destruct (on_message_auth ws props st Ed) as (st1 & _ & Hm & _ & Ht & ->).
      rewrite register_spec. eexists. exists [].
      split; [reflexivity|]. simpl. rewrite app_nil_r, Hm.
      split; [exact Ht|]. split; [apply register_wf | reflexivity].
  - rewrite on_close_spec. eexists. exists [].
    split; [reflexivity|]. simpl. rewrite app_nil_r.
    split; [reflexivity|]. split; [apply close_entries_wf | reflexivity].
  - rewrite broadcastToUser_spec. eexists. eexists.
    split; [reflexivity|]. simpl.
    split; [reflexivity|]. split; [trivial | discriminate].
  - unfold set_ready. eexists. exists [].
    split; [reflexivity|]. simpl. rewrite app_nil_r.
    split; [reflexivity|]. split; [trivial | reflexivity].
Qed.

Lemma run_shape (es : list event) (st : state) :
  exists st' acts,
    run es st = Returned tt st' /\
    trace st' = (trace st ++ acts)%list /\
    (wf (userConnections st) -> wf (userConnections st')) /\
    (forallb (fun e => negb (is_emit e)) es = true -> forall ws, sent_to ws acts = []).
Proof.
  revert st. induction es as [|e es IH]; intro st; simpl.
  - exists st, []. rewrite app_nil_r.
    split; [reflexivity|]. split; [reflexivity|]. split; [trivial | reflexivity].
  - destruct (step_shape e st) as (st1 & a1 & E1 & T1 & W1 & S1).
    destruct (IH st1) as (st2 & a2 & E2 & T2 & W2 & S2).
    exists st2, (a1 ++ a2)%list. unfold bind. rewrite E1, E2.
    split; [reflexivity|]. split; [now rewrite T2, T1, app_assoc|].
    split; [auto|]. intros H ws. apply andb_true_iff in H as [He Hes].
    apply negb_true_iff in He.
    now rewrite sent_to_app, (S1 He), (S2 Hes).
Qed.

Lemma run_app (es1 es2 : list event) (st : state) :
  run (es1 ++ es2) st = run es2 (run_state es1 st).
Proof.
  revert st. induction es1 as [|e es1 IH]; intro st; simpl; [reflexivity|].
  unfold run_state. simpl. unfold bind.
  destruct (step_shape e st) as (st1 & a1 & -> & _). apply IH.
Qed.

Lemma run_state_wf (es : list event) (st : state) :
  wf (userConnections st) -> wf (userConnections (run_state es st)).
Proof.
  unfold run_state. destruct (run_shape es st) as (st' & acts & -> & _ & W & _).
  exact W.
Qed.

Lemma run_state_trace (es : list event) (st : state) :
  trace (run_state es st) = (trace st ++ emitted (run es st) st)%list.
Proof.
  unfold run_state. destruct (run_shape es st) as (st' & acts & -> & T & _).
  now rewrite (@emitted_of_trace _ tt _ _ _ T).
Qed.

Lemma inbox_run (ws : conn) (es : list event) (st : state) :
  inbox ws (run_state es st) = (inbox ws st ++ received ws es st)%list.
Proof. unfold inbox, received. now rewrite run_state_trace, sent_to_app. Qed.

Lemma received_app (ws : conn) (es1 es2 : list event) (st : state) :
  received ws (es1 ++ es2) st =
  (received ws es1 st ++ received ws es2 (run_state es1 st))%list.
Proof.
  apply (app_inv_head (inbox ws st)).
  rewrite app_assoc, <- !inbox_run. unfold run_state. now rewrite run_app.
Qed.

Lemma received_no_emit (ws : conn) (es : list event) (st : state) :
  forallb (fun e => negb (is_emit e)) es = true -> received ws es st = [].
Proof.
  intro H. unfold received.
  destruct (run_shape es st) as (st' & acts & -> & T & _ & S).
  rewrite (@emitted_of_trace _ tt _ _ _ T). now apply S.
Qed.

Lemma received_emit (ws : conn) (userId : string) (message : value) (st : state) :
  received ws [Emit userId message] st =
  sent_to ws (broadcast_actions JSON_stringify userId message st).
Proof.
  unfold received. simpl. unfold bind.
  rewrite broadcastToUser_spec. unfold ret. now rewrite emitted_add_trace.
Qed.

Lemma received_emit_wf (ws : conn) (userId : string) (message : value) (st : state) :
  wf (userConnections st) ->
  received ws [Emit userId message] st =
  if member userId ws st && is_open st ws then [JSON_stringify message] else [].
Proof.
  intros (_ & Hs & _). rewrite received_emit.
  unfold broadcast_actions, member, connectionsFor.
  destruct (Map_get (KStr userId) (userConnections st)) as [s|] eqn:E; [|reflexivity].
  simpl. apply sent_to_frames. eapply Hs, Map_get_In, E.
Qed.

End Runs.

(** ** Order of delivery *)

Section Ordering.

Variable JSON_stringify : value -> string.

Local Abbreviation run_state := (run_state JSON_stringify).
Local Abbreviation received := (received JSON_stringify).

(** C9: a broadcast hands nothing to a socket that was closed before it,
    nor to any socket outside the identity's set when it is called;
    frames, closes and transport changes that come later hand out
    nothing, so a socket that registers afterwards is never given the
    earlier event; and of two broadcasts to one identity the frame of the
    first comes before the frame of the second in the inbox of every
    socket that is a member and open at both. *)
Theorem no_replay_and_order :
  (forall ws userId message st,
      received ws [Emit userId message] (state_of (on_close ws st)) = []) /\
  (forall ws userId message st,
      member userId ws st = false -> received ws [Emit userId message] st = []) /\
  (forall ws es st,
      forallb (fun e => negb (is_emit e)) es = true -> received ws es st = []) /\
  (forall ws userId message es st,
      member userId ws st = false ->
      inbox ws (run_state (Emit userId message :: es) st) =
      (inbox ws st ++ received ws es (run_state [Emit userId message] st))%list) /\
  (forall ws userId e1 e2 es1 es2 es3 rs,
      let s1 := run_state es1 (init rs) in
      let s1' := run_state [Emit userId e1] s1 in
      let s2 := run_state es2 s1' in
      let s2' := run_state [Emit userId e2] s2 in
      inbox ws (run_state (es1 ++ Emit userId e1 :: es2 ++ Emit userId e2 :: es3) (init rs)) =
      (inbox ws s1 ++ received ws [Emit userId e1] s1 ++ received ws es2 s1'
         ++ received ws [Emit userId e2] s2 ++ received ws es3 s2')%list /\
      received ws [Emit userId e1] s1 =
      (if member userId ws s1 && is_open s1 ws then [JSON_stringify e1] else []) /\
      received ws [Emit userId e2] s2 =
      (if member userId ws s2 && is_open s2 ws then [JSON_stringify e2] else [])).
Proof.
  assert (Hout : forall ws userId message st,
             member userId ws st = false -> received ws [Emit userId message] st = []).
  { intros ws userId message st Hm. rewrite received_emit.
    apply sent_to_none. intros d H. apply In_broadcast_actions in H.
    destruct H as (_ & H & _). apply Set_has_In in H.
    unfold member in Hm. congruence. }
  split.
  { intros ws userId message st. apply Hout. unfold member.
    destruct (Set_has ws _) eqn:E; [|reflexivity].
    apply Set_has_In in E. rewrite on_close_spec in E. simpl in E.
    now apply close_entries_removes in E. }
  split; [exact Hout|].
  split; [intros ws es st; apply received_no_emit|].
  split.
  { intros ws userId message es st Hm.
    change (Emit userId message :: es) with ([Emit userId message] ++ es)%list.
    rewrite inbox_run, received_app, (Hout _ _ _ _ Hm). reflexivity. }
  intros ws userId e1 e2 es1 es2 es3 rs s1 s1' s2 s2'.
  assert (W1 : wf (userConnections s1)) by apply run_state_wf, wf_nil.
  assert (W2 : wf (userConnections s2)) by (do 2 apply run_state_wf; exact W1).
  split; [|split; now apply received_emit_wf].
  change (es1 ++ Emit userId e1 :: es2 ++ Emit userId e2 :: es3)%list
    with (es1 ++ ([Emit userId e1] ++ (es2 ++ ([Emit userId e2] ++ es3))))%list.
  rewrite inbox_run, !received_app.
  fold s1. fold s1'. fold s2. fold s2'.
  rewrite app_assoc, <- inbox_run. reflexivity.
Qed.

End Ordering.

(** ** The share route *)

#[local] Arguments broadcastToUser : simpl never.

Section Share.

Variable JSON_stringify : value -> string.
Variables Body ShareData TaskShare : Type.
Variable sd_userId : ShareData -> string.
Variable insertTaskShareSchema_parse : Body -> number -> string -> option ShareData.
Variable storage_shareTask : ShareData -> option TaskShare.

Local Abbreviation share_route :=
  (share_route JSON_stringify sd_userId insertTaskShareSchema_parse storage_shareTask).

(** C8: a share that succeeds makes one call of [broadcastToUser]; its
    target is [shareData.userId], the recipient, and its event is
    [TASK_SHARED] with payload [{ taskId, sharedBy: actor }].  Every frame
    handed out is that event and goes to a socket of the recipient; when
    the recipient is not the actor, a socket bound only to the actor is
    handed nothing. *)
Theorem share_notifies_recipient
    (actor : string) (taskId : number) (body : Body)
    (st st' : state) (taskShare : TaskShare) :
  share_route actor taskId body st = Returned (Created taskShare) st' ->
  exists shareData,
    insertTaskShareSchema_parse body taskId actor = Some shareData /\
    storage_shareTask shareData = Some taskShare /\
    broadcastToUser JSON_stringify (sd_userId shareData) (TASK_SHARED taskId actor) st
      = Returned tt st' /\
    TASK_SHARED taskId actor =
      VObj [("type", VStr "TASK_SHARED");
            ("payload", VObj [("taskId", VNum taskId); ("sharedBy", VStr actor)])] /\
    stringify_calls (emitted (Returned tt st') st) <= 1 /\
    (forall ws,
        In ws (connectionsFor (KStr (sd_userId shareData)) (userConnections st)) ->
        is_open st ws = true ->
        In (Send ws (JSON_stringify (TASK_SHARED taskId actor))) (emitted (Returned tt st') st)) /\
    (forall ws data,
        In (Send ws data) (emitted (Returned tt st') st) ->
        data = JSON_stringify (TASK_SHARED taskId actor) /\
        In ws (connectionsFor (KStr (sd_userId shareData)) (userConnections st))) /\
    (sd_userId shareData <> actor ->
     forall ws,
       In ws (connectionsFor (KStr actor) (userConnections st)) ->
       ~ In ws (connectionsFor (KStr (sd_userId shareData)) (userConnections st)) ->
       sent_to ws (emitted (Returned tt st') st) = []).
Proof.
  unfold share_route, try_catch, bind, or_throw.
  destruct (insertTaskShareSchema_parse body taskId actor) as [shareData|] eqn:Ep;
    [|cbn; discriminate].
  cbn. destruct (storage_shareTask shareData) as [ts|] eqn:Es; [|cbn; discriminate].
  cbn. rewrite broadcastToUser_spec. cbn. intros [= -> <-].
  exists shareData. split; [reflexivity|]. split; [exact Es|].
  split; [apply broadcastToUser_spec|]. split; [reflexivity|].
  rewrite emitted_add_trace.
  split.
  { unfold broadcast_actions.
    destruct (Map_get _ _); simpl; [rewrite frames_stringify_calls|]; lia. }
  split.
  { intros ws Hin Hopen. apply In_broadcast_actions. auto. }
  split.
  { intros ws data H. apply In_broadcast_actions in H. tauto. }
  intros _ ws _ Hnot. apply sent_to_none. intros d H.
  apply In_broadcast_actions in H. tauto.
Qed.

(** A share that fails hands out nothing: the route answers 500 after one
    console line. *)
Lemma share_failure_sends_nothing
    (actor : string) (taskId : number) (body : Body)
    (st st' : state) (message : string) :
  share_route actor taskId body st = Returned (ServerError _ message) st' ->
  exists error,
    st' = add_trace [ConsoleError "Error sharing task:" error] st /\
    message = "Failed to share task".
Proof.
  unfold share_route, try_catch, bind, or_throw.
  destruct (insertTaskShareSchema_parse body taskId actor) as [shareData|].
  - cbn. destruct (storage_shareTask shareData) as [ts|].
    + cbn. rewrite broadcastToUser_spec. cbn. discriminate.
    + cbn. intros [= <- <-]. exists StorageError. split; reflexivity.
  - cbn. intros [= <- <-]. exists ZodError. split; reflexivity.
Qed.

End Share.

(** * Examples *)

(** The scenario of the spec: sockets 1 and 2 bind to u1 and both get
    the first event; after socket 1 closes only socket 2 gets the second;
    after socket 2 closes the entry of u1 is gone and a third broadcast
    hands out nothing. *)
Example scenario_two_sockets :
  let final :=
    run_state show_value
      [Message 1 (AUTH "u1"); Message 2 (AUTH "u1");
       Emit "u1" (example_event "TASK_CREATED" 7);
       Close 1;
       Emit "u1" (example_event "TASK_UPDATED" 7);
       Close 2;
       Emit "u1" (example_event "TASK_DELETED" 7)]
      (init all_open) in
  inbox 1 final = [show_value (example_event "TASK_CREATED" 7)] /\
  inbox 2 final = [show_value (example_event "TASK_CREATED" 7);
                   show_value (example_event "TASK_UPDATED" 7)] /\
  userConnections final = [] /\
  stringify_calls (trace final) = 2.
Proof. vm_compute. repeat split. Qed.

(** A truthy [userId] that is not a string passes the guard as well: the
    socket is filed under the number, where no broadcast looks. *)
Example numeric_userId_registers :
  let st :=
    state_of (on_message 1 (Parsed (VObj [("type", VStr "AUTH"); ("userId", VNum (Num 5))]))
                         (init all_open)) in
  userConnections st = [(KNum (Num 5), [1])] /\
  connectionsFor (KStr "5") (userConnections st) = [].
Proof. vm_compute. split; reflexivity. Qed.

(** C1 as stated fails: for an identity without an entry the event is not
    serialized at all. *)
Lemma unregistered_identity_not_serialized :
  Map_has (KStr "u3") (userConnections example_state) = false /\
  stringify_calls
    (emitted (broadcastToUser show_value "u3" (example_event "TASK_CREATED" 7) example_state)
             example_state) = 0 /\
  stringify_calls
    (emitted (broadcastToUser show_value "u3" (example_event "TASK_CREATED" 7) example_state)
             example_state) <> 1.
Proof. vm_compute. repeat split. discriminate. Qed.

(** C2 as stated fails: a second AUTH frame with another identity puts
    the socket into a second set. *)
Lemma second_auth_joins_second_set :
  userConnections twice_bound = [(KStr "u1", [1]); (KStr "u2", [1])] /\
  run_ops [Register (KStr "u1") 1; Register (KStr "u2") 1] (init all_open)
    = Returned tt twice_bound /\
  In 1 (connectionsFor (KStr "u1") (userConnections twice_bound)) /\
  In 1 (connectionsFor (KStr "u2") (userConnections twice_bound)) /\
  ~ exclusive (userConnections twice_bound).
Proof.
  split; [reflexivity|]. split; [reflexivity|].
  split; [now left|]. split; [now left|].
  intro H. specialize (H (KStr "u1") (KStr "u2") 1 (or_introl eq_refl) (or_introl eq_refl)).
  discriminate H.
Qed.

Lemma bind_once_exclusive_witness :
  bind_once example_ops = true /\
  exists st, run_ops example_ops (init all_open) = Returned tt st /\
             exclusive (userConnections st).
Proof.
  split; [reflexivity|].
  apply (@bind_once_exclusive example_ops all_open). reflexivity.
Defined.

Lemma register_then_unregister_witness :
  (forall c, In c (connectionsFor (KStr "u1")
                     (userConnections
                        (state_of (run_ops [Register (KStr "u1") 1; Register (KStr "u2") 2]
                                           (init all_open)))))
             -> c = 1) /\
  exists st',
    (register (KStr "u1") 1 ;; on_close 1)
      (state_of (run_ops [Register (KStr "u1") 1; Register (KStr "u2") 2] (init all_open)))
      = Returned tt st' /\
    connectionsFor (KStr "u1") (userConnections st') = [] /\
    Map_has (KStr "u1") (userConnections st') = false.
Proof.
  assert (H : forall c,
             In c (connectionsFor (KStr "u1")
                     (userConnections
                        (state_of (run_ops [Register (KStr "u1") 1; Register (KStr "u2") 2]
                                           (init all_open)))))
             -> c = 1).
  { vm_compute. intros c [E|[]]. symmetry. exact E. }
  split; [exact H|].
  exact (proj2 (register_then_unregister all_open (KStr "u1") 1)
               [Register (KStr "u1") 1; Register (KStr "u2") 2] H).
Defined.

(** C6 as stated fails: the ['close'] handler is not the removal of the
    socket from the set of one identity noted on it. *)
Lemma close_ignores_bound_identity :
  userConnections twice_bound = [(KStr "u1", [1]); (KStr "u2", [1])] /\
  userConnections (state_of (on_close 1 twice_bound)) = [] /\
  ~ (exists bound,
        userConnections (state_of (on_close 1 twice_bound)) =
        spec_unregister bound 1 (userConnections twice_bound)).
Proof.
  split; [reflexivity|]. split; [reflexivity|].
  intros [bound H]. change (userConnections twice_bound)
    with [(KStr "u1", [1]); (KStr "u2", [1])] in H.
  change (userConnections (state_of (on_close 1 twice_bound))) with (@nil (key * list conn)) in H.
  unfold spec_unregister in H. simpl in H.
  destruct (key_eqb bound (KStr "u1")) eqn:E1; simpl in H.
  - rewrite ?E1 in H. discriminate H.
  - destruct (key_eqb bound (KStr "u2")) eqn:E2; simpl in H.
    + rewrite ?E1, ?E2 in H. discriminate H.
    + discriminate H.
Qed.

Lemma auth_registers_witness :
  own_prop "type" [("type", VStr "AUTH"); ("userId", VStr "u1")] = Some (VStr "AUTH") /\
  own_prop "userId" [("type", VStr "AUTH"); ("userId", VStr "u1")] = Some (VStr "u1") /\
  "u1" <> "" /\
  on_message 1 (AUTH "u1") (init all_open) = register (KStr "u1") 1 (init all_open).
Proof.
  assert (Hne : "u1" <> "") by discriminate.
  split; [reflexivity|]. split; [reflexivity|]. split; [exact Hne|].
  exact (proj1 (@auth_registers 1 [("type", VStr "AUTH"); ("userId", VStr "u1")] "u1"
                  (init all_open) eq_refl eq_refl Hne)).
Defined.

(** C7 as stated fails: a frame of another shape is dropped without a
    console line. *)
Lemma unknown_frame_is_not_logged :
  discarded (Parsed (VObj [("type", VStr "PING")])) = true /\
  on_message 1 (Parsed (VObj [("type", VStr "PING")])) example_state
    = Returned tt example_state /\
  console_lines
    (emitted (on_message 1 (Parsed (VObj [("type", VStr "PING")])) example_state)
             example_state) = 0.
Proof. vm_compute. repeat split. Qed.

Lemma discarded_message_witness :
  discarded Unparsable = true /\
  exists st',
    on_message 1 Unparsable example_state = Returned tt st' /\
    userConnections st' = userConnections example_state /\
    readyState st' = readyState example_state /\
    trace st' = (trace example_state ++ logged Unparsable)%list /\
    (console_lines (logged Unparsable) = 1 <-> parse_error Unparsable <> None).
Proof.
  split; [reflexivity|].
  apply (@discarded_message 1 Unparsable example_state). reflexivity.
Defined.

Lemma share_notifies_recipient_witness :
  share_route show_value example_recipient example_parse example_shareTask
              "u1" (Num 7) "u2" example_state
  = Returned (Created 1)
             (add_trace [Stringify (TASK_SHARED (Num 7) "u1");
                         Send 3 (show_value (TASK_SHARED (Num 7) "u1"))]
                        example_state) /\
  exists shareData,
    example_parse "u2" (Num 7) "u1" = Some shareData /\
    example_recipient shareData = "u2" /\
    sent_to 1 [Stringify (TASK_SHARED (Num 7) "u1");
               Send 3 (show_value (TASK_SHARED (Num 7) "u1"))] = [].
Proof.
  assert (H : share_route show_value example_recipient example_parse example_shareTask
                          "u1" (Num 7) "u2" example_state
              = Returned (Created 1)
                  (add_trace [Stringify (TASK_SHARED (Num 7) "u1");
                              Send 3 (show_value (TASK_SHARED (Num 7) "u1"))]
                             example_state)) by reflexivity.
  split; [exact H|].
  destruct (@share_notifies_recipient show_value _ _ _ example_recipient example_parse
              example_shareTask "u1" (Num 7) "u2" example_state _ 1 H)
    as (shareData & Hp & _).
  exists shareData. split; [exact Hp|].
  injection Hp as <-. split; reflexivity.
Defined.

(** * Further properties of the handlers *)

Lemma Set_add_idempotent (ws : conn) (s : list conn) :
  Set_add ws (Set_add ws s) = Set_add ws s.
Proof.
  unfold Set_add at 1.
  assert (H : Set_has ws (Set_add ws s) = true)
    by (apply Set_has_In, Set_add_In; now right).
  now rewrite H.
Qed.

Lemma on_message_AUTH (ws : conn) (userId : string) (st : state) :
  on_message ws (AUTH userId) st =
  if String.eqb userId "" then Returned tt st else register (KStr userId) ws st.
Proof.
  unfold on_message, AUTH, try_catch, bind. cbn.
  destruct (String.eqb userId ""); cbn; [reflexivity|].
  rewrite register_spec. reflexivity.
Qed.

(** Registering a socket again under the identity it already has changes
    nothing: the registration of lines 316-319 is idempotent, and so is
    an AUTH frame that is sent twice. *)
Theorem registering_twice_is_once (k : key) (ws : conn) (userId : string) (st : state) :
  (register k ws ;; register k ws) st = register k ws st /\
  (on_message ws (AUTH userId) ;; on_message ws (AUTH userId)) st =
  on_message ws (AUTH userId) st.
Proof.
  assert (H : forall k', (register k' ws ;; register k' ws) st = register k' ws st).
  { intro k'. unfold bind. rewrite !register_spec. cbn.
    rewrite register_connectionsFor, key_eqb_refl, Set_add_idempotent, Map_set_set.
    reflexivity. }
  split; [apply H|].
  specialize (H (KStr userId)). unfold bind in *.
  rewrite !on_message_AUTH. destruct (String.eqb userId "") eqn:E.
  - rewrite on_message_AUTH, E. reflexivity.
  - destruct (register (KStr userId) ws st) as [[] st1|e st1] eqn:E1; [|reflexivity].
    rewrite on_message_AUTH, E. exact H.
Qed.

Lemma close_entries_twice (ws : conn) (m : registry) :
  close_entries ws (close_entries ws m) = close_entries ws m.
Proof.
  apply close_entries_untouched. intros k s H.
  apply close_entries_In in H as (s0 & _ & -> & Hne).
  split; [apply Set_delete_not_In | exact Hne].
Qed.

Lemma set_registry_same (st : state) : set_registry (userConnections st) st = st.
Proof. destruct st. reflexivity. Qed.

Lemma wf_entry (m : registry) (k : key) (s : list conn) :
  wf m -> In (k, s) m -> connectionsFor k m = s /\ s <> [].
Proof.
  intros (Hk & _ & He) Hin. split; [|eapply He, Hin].
  unfold connectionsFor. now rewrite (In_Map_get _ _ Hk Hin).
Qed.

Lemma Set_delete_comm (a b : conn) (s : list conn) :
  Set_delete a (Set_delete b s) = Set_delete b (Set_delete a s).
Proof.
  unfold Set_delete. induction s as [|c s IH]; simpl; [reflexivity|].
  destruct (Nat.eqb b c) eqn:Eb, (Nat.eqb a c) eqn:Ea; simpl;
    rewrite ?Ea, ?Eb; simpl; now rewrite IH.
Qed.

Lemma close_entries_cons (ws : conn) (k : key) (s : list conn) (m : registry) :
  close_entries ws ((k, s) :: m) =
  match Set_delete ws s with
  | [] => close_entries ws m
  | c :: r => (k, c :: r) :: close_entries ws m
  end.
Proof. simpl. destruct (Set_delete ws s); reflexivity. Qed.

Lemma close_entries_comm (a b : conn) (m : registry) :
  close_entries a (close_entries b m) = close_entries b (close_entries a m).
Proof.
  induction m as [|[k s] m IH]; [reflexivity|].
  pose proof (Set_delete_comm a b s) as H.
  rewrite (close_entries_cons b), (close_entries_cons a).
  destruct (Set_delete b s) as [|x sb] eqn:Eb, (Set_delete a s) as [|y sa] eqn:Ea.
  - exact IH.
  - rewrite close_entries_cons, <- H. exact IH.
  - rewrite close_entries_cons, H. exact IH.
  - rewrite !close_entries_cons, H.
    destruct (Set_delete b (y :: sa)); now rewrite IH.
Qed.

(** The ['close'] handler is idempotent, and two closes can run in either
    order: the registry after both is the same. *)
Theorem closes_commute (a b : conn) (st : state) :
  (on_close a ;; on_close a) st = on_close a st /\
  (on_close a ;; on_close b) st = (on_close b ;; on_close a) st.
Proof.
  unfold bind. rewrite !on_close_spec. cbn. split.
  - now rewrite close_entries_twice.
  - now rewrite close_entries_comm.
Qed.

(** Any frame at all leaves the handler without an exception; it hands
    nothing to any socket, touches no ready state, removes nobody from the
    registry, and the only socket it can add is the one it arrived on. *)
Theorem frame_only_adds_its_socket (ws : conn) (message : parse_result) (st : state) :
  exists st',
    on_message ws message st = Returned tt st' /\
    (forall k c, In c (connectionsFor k (userConnections st)) ->
                 In c (connectionsFor k (userConnections st'))) /\
    (forall k c, In c (connectionsFor k (userConnections st')) ->
                 In c (connectionsFor k (userConnections st)) \/ c = ws) /\
    readyState st' = readyState st /\
    (forall c, sent_to c (emitted (Returned tt st') st) = []).
Proof.
  destruct (discarded message) eqn:Ed.
  - exists (add_trace (logged message) st).
    split; [now apply on_message_discarded|]. cbn.
    split; [auto|]. split; [auto|]. split; [reflexivity|].
    intro c. rewrite emitted_add_trace. apply logged_sends_nothing.
  - destruct message as [|data]; [discriminate|].
    simpl in Ed. apply negb_false_iff in Ed.
    destruct data; try discriminate Ed.
    destruct (on_message_auth ws props st Ed) as (st1 & _ & Hm & Hr & Ht & ->).
    rewrite register_spec. eexists. split; [reflexivity|]. cbn. rewrite Hm.
    split.
    { intros k c H. rewrite register_connectionsFor.
      destruct (key_eqb k _) eqn:E; [|exact H].
      apply key_eqb_eq in E. subst k. apply Set_add_In. now left. }
    split.
    { intros k c H. rewrite register_connectionsFor in H.
      destruct (key_eqb k _) eqn:E; [|now left].
      apply key_eqb_eq in E. subst k. now apply Set_add_In in H. }
    split; [exact Hr|].
    intro c. unfold emitted. cbn. rewrite Ht, skipn_all. reflexivity.
Qed.

Lemma absent_nil (ws : conn) : absent ws [].
Proof. intros k s []. Qed.

Lemma absent_close (ws c : conn) (m : registry) :
  absent ws m -> absent ws (close_entries c m).
Proof.
  intros H k s Hin. apply close_entries_In in Hin as (s0 & H0 & -> & _).
  intro Hws. apply Set_delete_In in Hws as [Hws _]. exact (H k s0 H0 Hws).
Qed.

Lemma absent_after_close (ws : conn) (m : registry) : absent ws (close_entries ws m).
Proof.
  intros k s Hin. apply close_entries_In in Hin as (s0 & _ & -> & _).
  apply Set_delete_not_In.
Qed.

Lemma absent_connectionsFor (ws : conn) (m : registry) (k : key) :
  absent ws m -> ~ In ws (connectionsFor k m).
Proof.
  intros H Hin. apply connectionsFor_In in Hin as (s & Hs & Hws). exact (H k s Hs Hws).
Qed.

Lemma absent_register (ws c : conn) (k : key) (m : registry) :
  c <> ws -> absent ws m ->
  absent ws (Map_set k (Set_add c (connectionsFor k m)) m).
Proof.
  intros Hne H k' s Hin. apply Map_set_In in Hin as [[-> ->]|Hin]; [|exact (H k' s Hin)].
  intro Hws. apply Set_add_In in Hws as [Hws|Hws]; [|congruence].
  exact (absent_connectionsFor k H Hws).
Qed.

Lemma broadcast_actions_ext JSON_stringify (userId : string) (message : value)
    (st st' : state) :
  Map_get (KStr userId) (userConnections st') = Map_get (KStr userId) (userConnections st) ->
  readyState st' = readyState st ->
  broadcast_actions JSON_stringify userId message st' =
  broadcast_actions JSON_stringify userId message st.
Proof.
  intros Hg Hr. unfold broadcast_actions. rewrite Hg.
  destruct (Map_get (KStr userId) (userConnections st)); [|reflexivity].
  unfold frames, is_open. now rewrite Hr.
Qed.

Section Silence.

Variable JSON_stringify : value -> string.

Local Abbreviation step := (step JSON_stringify).
Local Abbreviation run := (run JSON_stringify).
Local Abbreviation run_state := (run_state JSON_stringify).
Local Abbreviation broadcastToUser := (broadcastToUser JSON_stringify).

(** In every state the server can reach, closing a socket takes that
    socket out of every set and leaves every other socket where it was,
    in the same order; closing a socket that is registered nowhere
    changes nothing. *)
Theorem close_removes_only_that_socket
    (es : list event) (rs : conn -> ready_state) (ws : conn) :
  (forall k,
      connectionsFor k (userConnections (state_of (on_close ws (run_state es (init rs))))) =
      Set_delete ws (connectionsFor k (userConnections (run_state es (init rs))))) /\
  (forall k c,
      In c (connectionsFor k (userConnections (state_of (on_close ws (run_state es (init rs))))))
      <-> In c (connectionsFor k (userConnections (run_state es (init rs)))) /\ c <> ws) /\
  ((forall k, ~ In ws (connectionsFor k (userConnections (run_state es (init rs))))) ->
   on_close ws (run_state es (init rs)) = Returned tt (run_state es (init rs))).
Proof.
  pose proof (run_state_wf JSON_stringify es (init rs) wf_nil) as Hwf.
  rewrite on_close_spec. cbn.
  assert (E : forall k,
             connectionsFor k (close_entries ws (userConnections (run_state es (init rs)))) =
             Set_delete ws (connectionsFor k (userConnections (run_state es (init rs)))))
    by (intro k; apply close_entries_get, Hwf).
  split; [exact E|]. split.
  - intros k c. rewrite E. apply Set_delete_In.
  - intro Hnone. rewrite close_entries_untouched; [now rewrite set_registry_same|].
    intros k s Hin. destruct (@wf_entry _ _ _ Hwf Hin) as [Hc Hne].
    split; [|exact Hne]. rewrite <- Hc. apply Hnone.
Qed.

Lemma step_absent (ws : conn) (e : event) (st : state) :
  never_binds ws [e] = true ->
  absent ws (userConnections st) ->
  exists st' acts,
    step e st = Returned tt st' /\
    trace st' = (trace st ++ acts)%list /\
    absent ws (userConnections st') /\
    sent_to ws acts = [].
Proof.
  intros Hb Ha. destruct e as [c message|c|userId message|c rs]; simpl.
  - destruct (discarded message) eqn:Ed.
    + exists (add_trace (logged message) st), (logged message).
      split; [now apply on_message_discarded|].
      split; [reflexivity|]. split; [exact Ha | apply logged_sends_nothing].
    + simpl in Hb. rewrite Ed, orb_false_r, andb_true_r in Hb.
      apply negb_true_iff, Nat.eqb_neq in Hb.
      destruct message as [|data]; [discriminate|].
      simpl in Ed. apply negb_false_iff in Ed.
      destruct data; try discriminate Ed.
      destruct (on_message_auth c props st Ed) as (st1 & _ & Hm & _ & Ht & ->).
      rewrite register_spec. eexists. exists [].
      split; [reflexivity|]. cbn. rewrite app_nil_r, Hm.
      split; [exact Ht|]. split; [now apply absent_register | reflexivity].
  - rewrite on_close_spec. eexists. exists [].
    split; [reflexivity|]. cbn. rewrite app_nil_r.
    split; [reflexivity|]. split; [now apply absent_close | reflexivity].
  - rewrite broadcastToUser_spec. eexists. eexists.
    split; [reflexivity|]. cbn. split; [reflexivity|]. split; [exact Ha|].
    apply sent_to_none. intros d H. apply In_broadcast_actions in H.
    destruct H as (_ & H & _). exact (absent_connectionsFor _ Ha H).
  - unfold set_ready. eexists. exists [].
    split; [reflexivity|]. cbn. rewrite app_nil_r.
    split; [reflexivity|]. split; [exact Ha | reflexivity].
Qed.

Lemma run_absent (ws : conn) (es : list event) (st : state) :
  never_binds ws es = true ->
  absent ws (userConnections st) ->
  exists st' acts,
    run es st = Returned tt st' /\
    trace st' = (trace st ++ acts)%list /\
    absent ws (userConnections st') /\
    sent_to ws acts = [].
Proof.
  revert st. induction es as [|e es IH]; intros st Hb Ha.
  - exists st, []. cbn. rewrite app_nil_r. auto.
  - assert (He : never_binds ws [e] = true /\ never_binds ws es = true).
    { unfold never_binds in *. simpl in *. apply andb_true_iff in Hb as [H1 H2].
      now rewrite H1, H2. }
    destruct He as [He Hes].
    destruct (step_absent e st He Ha) as (st1 & a1 & E1 & T1 & A1 & S1).
    destruct (IH st1 Hes A1) as (st2 & a2 & E2 & T2 & A2 & S2).
    exists st2, (a1 ++ a2)%list. simpl. unfold bind. rewrite E1, E2.
    split; [reflexivity|]. split; [now rewrite T2, T1, app_assoc|].
    split; [exact A2|]. now rewrite sent_to_app, S1, S2.
Qed.

(** A socket that never sends a frame passing the guard of the handler is
    handed nothing, whatever else happens on the server. *)
Theorem silent_socket_gets_nothing
    (es : list event) (rs : conn -> ready_state) (ws : conn) :
  never_binds ws es = true ->
  inbox ws (run_state es (init rs)) = [] /\
  forall k, ~ In ws (connectionsFor k (userConnections (run_state es (init rs)))).
Proof.
  intro Hb. unfold run_state, inbox.
  destruct (@run_absent ws es (init rs) Hb (absent_nil ws)) as (st' & acts & -> & T & A & S).
  cbn. rewrite T. cbn. split; [exact S|].
  intro k. now apply absent_connectionsFor.
Qed.

(** Once a socket has closed it is handed nothing more, by any later
    broadcast, unless a frame of its own binds it again. *)
Theorem nothing_after_close (es : list event) (st : state) (ws : conn) :
  never_binds ws es = true ->
  inbox ws (run_state (Close ws :: es) st) = inbox ws st.
Proof.
  intro Hb. unfold run_state, inbox. simpl. unfold bind. rewrite on_close_spec.
  destruct (@run_absent ws es (set_registry (close_entries ws (userConnections st)) st) Hb
                       (absent_after_close ws (userConnections st)))
    as (st' & acts & -> & T & _ & S).
  cbn. rewrite T. cbn. now rewrite sent_to_app, S, app_nil_r.
Qed.

(** The guard accepts a [userId] that is true but not a string (a number,
    [true], an array, an object).  The socket is then filed under a key
    that is no string: the set of every string identity stays as it was,
    and no call of [broadcastToUser] behaves differently than before. *)
Theorem non_string_userId_is_filed_apart
    (ws : conn) (props : list (string * value)) (st : state) :
  is_auth (VObj props) = true ->
  (forall s, own_prop "userId" props <> Some (VStr s)) ->
  exists st' k,
    on_message ws (Parsed (VObj props)) st = Returned tt st' /\
    In ws (connectionsFor k (userConnections st')) /\
    (forall s, k <> KStr s) /\
    (forall s, connectionsFor (KStr s) (userConnections st') =
               connectionsFor (KStr s) (userConnections st)) /\
    (forall userId message,
        emitted (broadcastToUser userId message st') st' =
        emitted (broadcastToUser userId message st) st).
Proof.
  intros Hauth Hns.
  destruct (on_message_auth ws props st Hauth) as (st1 & _ & Hm & Hr & _ & ->).
  rewrite register_spec.
  set (k := key_of (allocated st) (own_prop "userId" props)).
  assert (Hk : forall s, k <> KStr s).
  { intros s. subst k. destruct (own_prop "userId" props) as [[]|] eqn:E;
      simpl; try discriminate. exfalso. exact (Hns _ eq_refl). }
  assert (Hg : forall s, Map_get (KStr s)
                           (Map_set k (Set_add ws (connectionsFor k (userConnections st1)))
                                    (userConnections st1)) =
                         Map_get (KStr s) (userConnections st)).
  { intro s. rewrite Map_get_set, key_eqb_neq, Hm; [reflexivity|].
    intro E. exact (Hk s (eq_sym E)). }
  eexists. exists k. split; [reflexivity|].
  split.
  { unfold set_registry. cbn [userConnections].
    rewrite register_connectionsFor, key_eqb_refl. apply Set_add_In. now right. }
  split; [exact Hk|].
  split.
  - intro s. unfold connectionsFor, set_registry. cbn [userConnections]. now rewrite Hg.
  - intros userId message. rewrite !broadcast_emitted.
    apply broadcast_actions_ext; [apply Hg | exact Hr].
Qed.

End Silence.

(** * Properties of the task routes *)

(** Reduces [emitted] on a state whose trace is that of [st] with
    something appended. *)
Ltac reduce_emitted :=
  unfold emitted; cbn [state_of trace add_trace];
  rewrite ?skipn_app, ?skipn_all, ?Nat.sub_diag; cbn [skipn app].

Section RouteProperties.

Variable JSON_stringify : value -> string.
Variables Body InsertTask TaskUpdates Task : Type.
Variable task_data : Task -> value.
Variable insertTaskSchema_parse : Body -> string -> option InsertTask.
Variable insertTaskSchema_partial_parse : Body -> option TaskUpdates.
Variable db_insert_tasks : InsertTask -> option (list Task).
Variable db_update_tasks : number -> string -> TaskUpdates -> option (list Task).
Variable db_delete_tasks : number -> string -> option nat.

Local Abbreviation create_route :=
  (create_route JSON_stringify task_data insertTaskSchema_parse db_insert_tasks).
Local Abbreviation update_route :=
  (update_route JSON_stringify task_data insertTaskSchema_partial_parse db_update_tasks).
Local Abbreviation delete_route := (delete_route JSON_stringify Task db_delete_tasks).
Local Abbreviation broadcast_actions := (broadcast_actions JSON_stringify).

Lemma broadcast_actions_members (userId : string) (message : value) (st : state) (ws : conn) :
  ~ In ws (connectionsFor (KStr userId) (userConnections st)) ->
  sent_to ws (broadcast_actions userId message st) = [].
Proof.
  intro H. apply sent_to_none. intros d Hd.
  apply In_broadcast_actions in Hd. tauto.
Qed.

(** The create route always answers, and never touches the registry.  It
    answers 201 exactly when the schema accepts the body and the insert
    succeeds; it has then made one broadcast of TASK_CREATED, carrying
    the new row, to the sockets of the creator.  Otherwise it answers
    500 after one console line and hands nothing to any socket. *)
Theorem create_route_outcome (userId : string) (body : Body) (st : state) :
  exists r st',
    create_route userId body st = Returned r st' /\
    userConnections st' = userConnections st /\
    (forall ws, ~ In ws (connectionsFor (KStr userId) (userConnections st)) ->
                sent_to ws (emitted (Returned r st') st) = []) /\
    match r with
    | ReplyJson status task =>
        status = 201 /\
        (exists taskData,
            insertTaskSchema_parse body userId = Some taskData /\
            option_map first_row (db_insert_tasks taskData) = Some task) /\
        emitted (Returned r st') st =
        broadcast_actions userId
          (event_object "TASK_CREATED" (option_map task_data task)) st
    | ReplyMessage status message =>
        status = 500 /\ message = "Failed to create task" /\
        (insertTaskSchema_parse body userId = None \/
         exists taskData, insertTaskSchema_parse body userId = Some taskData /\
                          db_insert_tasks taskData = None) /\
        exists error,
          emitted (Returned r st') st = [ConsoleError "Error creating task:" error]
    end.
Proof.
  unfold create_route, try_catch, bind, or_throw, createTask, bind, or_throw.
  destruct (insertTaskSchema_parse body userId) as [taskData|] eqn:Ep; cbn.
  - destruct (db_insert_tasks taskData) as [rows|] eqn:Ed; cbn.
    + rewrite broadcastToUser_spec. cbn.
      eexists. eexists. split; [reflexivity|]. split; [reflexivity|].
      rewrite emitted_add_trace.
      split; [intros ws; apply broadcast_actions_members|].
      split; [reflexivity|]. split; [|reflexivity].
      exists taskData. now rewrite Ed.
    + eexists. eexists. split; [reflexivity|]. split; [reflexivity|].
      reduce_emitted.
      split; [reflexivity|]. split; [reflexivity|]. split; [reflexivity|].
      split; [right; now exists taskData | now exists StorageError].
  - eexists. eexists. split; [reflexivity|]. split; [reflexivity|].
    reduce_emitted.
    split; [reflexivity|]. split; [reflexivity|]. split; [reflexivity|].
    split; [now left | now exists ZodError].
Qed.


(** An update that matches no row (the task does not exist or is not the
    caller's) is answered 200 with no body, and every open socket of the
    caller is still handed a TASK_UPDATED event, one that has no payload. *)
Theorem update_of_unmatched_task
    (userId : string) (taskId : number) (body : Body) (updates : TaskUpdates)
    (st : state) :
  insertTaskSchema_partial_parse body = Some updates ->
  db_update_tasks taskId userId updates = Some [] ->
  update_route userId taskId body st =
  Returned (ReplyJson 200 None)
           (add_trace (broadcast_actions userId (VObj [("type", VStr "TASK_UPDATED")]) st) st) /\
  forall ws,
    In ws (connectionsFor (KStr userId) (userConnections st)) ->
    is_open st ws = true ->
    In (Send ws (JSON_stringify (VObj [("type", VStr "TASK_UPDATED")])))
       (broadcast_actions userId (VObj [("type", VStr "TASK_UPDATED")]) st).
Proof.
  intros Hp Hd. split.
  - unfold update_route, try_catch, bind, or_throw, updateTask, bind, or_throw.
    rewrite Hp. cbn. rewrite Hd. cbn. rewrite broadcastToUser_spec. reflexivity.
  - intros ws Hin Hopen. apply In_broadcast_actions. auto.
Qed.

(** The delete route broadcasts only what was deleted: when the database
    reports no deleted row it answers 404 and does nothing else; when it
    reports one it broadcasts TASK_DELETED with the id to the sockets of
    the caller and answers 200; when the database throws it answers 500
    after one console line.  It never touches the registry. *)
Theorem delete_route_outcome (userId : string) (taskId : number) (st : state) :
  match db_delete_tasks taskId userId with
  | Some 0 =>
      delete_route userId taskId st = Returned (ReplyMessage 404 "Task not found") st
  | Some (S _) =>
      delete_route userId taskId st =
      Returned (ReplyMessage 200 "Task deleted successfully")
               (add_trace
                  (broadcast_actions userId
                     (VObj [("type", VStr "TASK_DELETED");
                            ("payload", VObj [("id", VNum taskId)])]) st) st)
  | None =>
      delete_route userId taskId st =
      Returned (ReplyMessage 500 "Failed to delete task")
               (add_trace [ConsoleError "Error deleting task:" StorageError] st)
  end /\
  userConnections (state_of (delete_route userId taskId st)) = userConnections st /\
  forall ws, ~ In ws (connectionsFor (KStr userId) (userConnections st)) ->
             sent_to ws (emitted (delete_route userId taskId st) st) = [].
Proof.
  unfold delete_route, try_catch, bind, deleteTask, bind, or_throw.
  destruct (db_delete_tasks taskId userId) as [[|n]|]; cbn.
  - split; [reflexivity|]. split; [reflexivity|].
    intros ws _. unfold emitted. cbn. now rewrite skipn_all.
  - rewrite broadcastToUser_spec. cbn. split; [reflexivity|]. split; [reflexivity|].
    intros ws. rewrite emitted_add_trace. apply broadcast_actions_members.
  - split; [reflexivity|]. split; [reflexivity|].
    intros ws _. unfold emitted, ret. cbn.
    now rewrite skipn_app, skipn_all, Nat.sub_diag.
Qed.

End RouteProperties.

(** * Properties of the statistics and the suggestions *)

Lemma filter_disjoint_length {A} (p q : A -> bool) (l : list A) :
  (forall x, p x = true -> q x = false) ->
  List.length (filter p l) + List.length (filter q l) <= List.length l.
Proof.
  intro H. induction l as [|x l IH]; simpl; [lia|].
  destruct (p x) eqn:Ep.
  - rewrite (H x Ep). simpl. lia.
  - destruct (q x); simpl; lia.
Qed.

Section StatisticsProperties.

Variables Task Template Stats : Type.
Variable task_status : Task -> option string.
Variable task_dueDate : Task -> option Z.
Variable db_run : query -> option (list Task).
Variable db_select_templates : string -> option (list Template).
Variable db_select_userStats : string -> option (list Stats).

Local Abbreviation status_is := (status_is task_status).
Local Abbreviation overdue := (overdue task_status task_dueDate).
Local Abbreviation overdue_from := (overdue_from task_status task_dueDate).
Local Abbreviation getTaskStats := (getTaskStats task_status task_dueDate db_run).
Local Abbreviation generateAISuggestions :=
  (generateAISuggestions task_status task_dueDate db_run db_select_templates
                         db_select_userStats).
Local Abbreviation suggestions_route :=
  (suggestions_route task_status task_dueDate db_run db_select_templates
                     db_select_userStats).

Lemma overdue_from_In (clock : nat -> Z) (reads : nat) (taskList : list Task) (t : Task) :
  In t (overdue_from clock reads taskList) ->
  In t taskList /\ status_is t "completed" = false /\
  exists dueDate n, task_dueDate t = Some dueDate /\ (dueDate < clock n)%Z.
Proof.
  revert reads. induction taskList as [|x l IH]; intros reads; simpl; [tauto|].
  destruct (task_dueDate x) as [d|] eqn:Ed.
  - destruct (Z.ltb d (clock reads) && negb (status_is x "completed")) eqn:E.
    + intros [<-|H].
      * apply andb_true_iff in E as [E1 E2]. split; [now left|].
        split; [now apply negb_true_iff in E2|].
        exists d, reads. split; [exact Ed | now apply Z.ltb_lt].
      * destruct (IH _ H) as (H1 & H2). split; [now right | exact H2].
    + intro H. destruct (IH _ H) as (H1 & H2). split; [now right | exact H2].
  - intro H. destruct (IH _ H) as (H1 & H2). split; [now right | exact H2].
Qed.

Lemma overdue_from_steady (clock : nat -> Z) (now : Z) (reads : nat) (taskList : list Task) :
  (forall n, clock n = now) ->
  overdue_from clock reads taskList =
  filter (fun t => match task_dueDate t with
                   | Some dueDate => Z.ltb dueDate now && negb (status_is t "completed")
                   | None => false
                   end) taskList.
Proof.
  intro Hc. revert reads. induction taskList as [|x l IH]; intros reads; simpl; [reflexivity|].
  destruct (task_dueDate x) as [d|]; [|apply IH].
  rewrite Hc. destruct (Z.ltb d now && negb (status_is x "completed")); now rewrite IH.
Qed.

Lemma overdue_from_bound (clock : nat -> Z) (reads : nat) (taskList : list Task) :
  List.length (overdue_from clock reads taskList)
  + List.length (filter (fun t => status_is t "completed") taskList)
  <= List.length taskList.
Proof.
  revert reads. induction taskList as [|x l IH]; intros reads; simpl; [lia|].
  destruct (task_dueDate x) as [d|].
  - destruct (status_is x "completed") eqn:Es.
    + rewrite andb_false_r. simpl. specialize (IH (S reads)). lia.
    + destruct (Z.ltb d (clock reads)); simpl; specialize (IH (S reads)); lia.
  - specialize (IH reads). destruct (status_is x "completed"); simpl; lia.
Qed.

(** The tasks counted as overdue, here and in the statistics: each has a
    due date that lies before a reading of the clock, and none is
    completed; a task without a due date is never overdue, and a task
    without a status counts as not completed.  With a clock that stands
    still the overdue tasks are exactly those, in the order of the list;
    a task due at that very instant is not among them. *)
Theorem overdue_tasks_characterised (clock : nat -> Z) (taskList : list Task) :
  (forall t, In t (overdue clock taskList) ->
             In t taskList /\ status_is t "completed" = false /\
             exists dueDate n, task_dueDate t = Some dueDate /\ (dueDate < clock n)%Z) /\
  (forall now, (forall n, clock n = now) ->
               overdue clock taskList =
               filter (fun t => match task_dueDate t with
                                | Some dueDate =>
                                    Z.ltb dueDate now && negb (status_is t "completed")
                                | None => false
                                end) taskList) /\
  List.length (overdue clock taskList) <= List.length taskList.
Proof.
  split; [intros t; apply overdue_from_In|].
  split; [intros now; apply overdue_from_steady|].
  pose proof (overdue_from_bound clock 0 taskList). unfold overdue. lia.
Qed.

(** The counts of [getTaskStats] fit together: completed and in-progress
    tasks are different tasks, and an overdue task is never a completed
    one, so each pair of counts stays within the total.  The call does
    nothing but read. *)
Theorem task_statistics_counts
    (clock : nat -> Z) (userId : string) (dateRange : option (Z * Z))
    (st st' : state) (s : TaskStatistics) :
  getTaskStats clock userId dateRange st = Returned s st' ->
  st' = st /\
  (exists taskList,
      db_run (getTaskStats_query userId dateRange) = Some taskList /\
      totalTasks s = List.length taskList /\
      overdueTasks s = List.length (overdue clock taskList)) /\
  completedTasks s + inProgressTasks s <= totalTasks s /\
  overdueTasks s + completedTasks s <= totalTasks s.
Proof.
  unfold getTaskStats, bind, or_throw.
  destruct (db_run (getTaskStats_query userId dateRange)) as [taskList|];
    [|cbn; discriminate].
  cbn. intros [= <- <-]. cbn. split; [reflexivity|].
  split; [exists taskList; auto|]. split.
  - apply filter_disjoint_length. intros x Hx. unfold status_is in *.
    destruct (task_status x) as [s|]; [|discriminate].
    apply String.eqb_eq in Hx. now subst.
  - apply overdue_from_bound.
Qed.

(** The completion rate of [getTaskStats] is never the result of a
    division by zero: it is the literal 0 exactly when there are no
    tasks, and otherwise the quotient of the completed count by the
    positive total, which it does not exceed. *)
Theorem completion_rate_never_divides_by_zero
    (clock : nat -> Z) (userId : string) (dateRange : option (Z * Z))
    (st st' : state) (s : TaskStatistics) :
  getTaskStats clock userId dateRange st = Returned s st' ->
  (completionRate s = RateZero <-> totalTasks s = 0) /\
  (forall completed total,
      completionRate s = RatePercent completed total ->
      completed = completedTasks s /\ total = totalTasks s /\
      0 < total /\ completed <= total) /\
  averageCompletionTime s = 0.
Proof.
  unfold getTaskStats, bind, or_throw, ret, throw.
  destruct (db_run (getTaskStats_query userId dateRange)) as [taskList|];
    [|discriminate].
  intros [= <- <-]. cbn [completionRate totalTasks completedTasks averageCompletionTime].
  destruct (Nat.ltb 0 (List.length taskList)) eqn:E.
  - apply Nat.ltb_lt in E. split; [split; [discriminate | lia]|].
    split; [|reflexivity]. intros completed total [= <- <-].
    split; [reflexivity|]. split; [reflexivity|]. split; [exact E|].
    apply filter_length_le.
  - apply Nat.ltb_ge in E. split; [split; [lia | reflexivity]|].
    split; [discriminate | reflexivity].
Qed.

(** [generateAISuggestions] returns at most three suggestions, always in
    the order overdue_focus, optimal_time, use_template and each at most
    once: the first exactly when some fetched task is overdue (its text
    carries their number), the second exactly when the hour is 14, 15 or
    16, the third exactly when the user has a template and fewer than
    five tasks were fetched. *)
Theorem suggestions_in_fixed_order
    (clock : nat -> Z) (currentHour : Z) (userId : string)
    (st st' : state) (l : list suggestion) :
  generateAISuggestions clock currentHour userId st = Returned l st' ->
  st' = st /\
  exists userTasks templates,
    db_run (getTasks_query userId (Some limit_10)) = Some userTasks /\
    db_select_templates userId = Some templates /\
    l = ((if Nat.ltb 0 (List.length (overdue clock userTasks))
          then [overdue_focus (List.length (overdue clock userTasks))] else [])
           ++ (if Z.leb 14 currentHour && Z.leb currentHour 16 then [optimal_time] else [])
           ++ (if Nat.ltb 0 (List.length templates) && Nat.ltb (List.length userTasks) 5
               then [use_template] else []))%list /\
    List.length l <= 3 /\
    NoDup (map s_type l).
Proof.
  unfold generateAISuggestions, getTasks, getUserStats, getTaskTemplates,
    bind, or_throw, ret, throw.
  destruct (db_run (getTasks_query userId (Some limit_10))) as [userTasks|];
    [|discriminate].
  destruct (db_select_userStats userId) as [rows|]; [|discriminate].
  destruct (db_select_templates userId) as [templates|]; [|discriminate].
  intros [= <- <-]. split; [reflexivity|].
  exists userTasks, templates. split; [reflexivity|]. split; [reflexivity|].
  destruct (Nat.ltb 0 (List.length (overdue clock userTasks)));
    destruct (Z.leb 14 currentHour && Z.leb currentHour 16);
    destruct (Nat.ltb 0 (List.length templates) && Nat.ltb (List.length userTasks) 5);
    (split; [reflexivity|]); (split; [simpl; lia|]);
    cbn; repeat constructor; simpl; intuition discriminate.
Qed.

(** The suggestions route is all or nothing: it answers 200 only when
    the tasks, the user statistics and the templates could all be read,
    although the statistics are not used for any suggestion; when one of
    the three reads fails it answers 500 after one console line.  It
    changes no registry entry and hands nothing to any socket. *)
Theorem suggestions_all_or_nothing
    (clock : nat -> Z) (currentHour : Z) (userId : string) (st : state) :
  exists r st',
    suggestions_route clock currentHour userId st = Returned r st' /\
    userConnections st' = userConnections st /\
    (forall ws, sent_to ws (emitted (Returned r st') st) = []) /\
    match r with
    | ReplyJson status l =>
        status = 200 /\ st' = st /\
        generateAISuggestions clock currentHour userId st = Returned l st /\
        db_run (getTasks_query userId (Some limit_10)) <> None /\
        db_select_userStats userId <> None /\
        db_select_templates userId <> None
    | ReplyMessage status message =>
        status = 500 /\ message = "Failed to generate AI suggestions" /\
        st' = add_trace [ConsoleError "Error generating AI suggestions:" StorageError] st /\
        (db_run (getTasks_query userId (Some limit_10)) = None \/
         db_select_userStats userId = None \/
         db_select_templates userId = None)
    end.
Proof.
  unfold suggestions_route, try_catch, bind.
  unfold generateAISuggestions, getTasks, getUserStats, getTaskTemplates,
    bind, or_throw, ret, throw, console_error, emit.
  destruct (db_run (getTasks_query userId (Some limit_10))) as [userTasks|].
  - destruct (db_select_userStats userId) as [rows|].
    + destruct (db_select_templates userId) as [templates|].
      * eexists. eexists. split; [reflexivity|]. split; [reflexivity|].
        split; [intro ws; unfold emitted; cbn; now rewrite skipn_all|].
        split; [reflexivity|]. split; [reflexivity|]. split; [reflexivity|].
        repeat split; discriminate.
      * eexists. eexists. split; [reflexivity|]. split; [reflexivity|].
        split; [intro ws; unfold emitted; cbn;
                now rewrite skipn_app, skipn_all, Nat.sub_diag|].
        split; [reflexivity|]. split; [reflexivity|]. split; [reflexivity|]. auto.
    + eexists. eexists. split; [reflexivity|]. split; [reflexivity|].
      split; [intro ws; unfold emitted; cbn;
              now rewrite skipn_app, skipn_all, Nat.sub_diag|].
      split; [reflexivity|]. split; [reflexivity|]. split; [reflexivity|]. auto.
  - eexists. eexists. split; [reflexivity|]. split; [reflexivity|].
    split; [intro ws; unfold emitted; cbn;
            now rewrite skipn_app, skipn_all, Nat.sub_diag|].
    split; [reflexivity|]. split; [reflexivity|]. split; [reflexivity|]. auto.
Qed.

End StatisticsProperties.

(** * Properties of the task query *)

Lemma truthy_string_idempotent (o : option string) :
  truthy_string (truthy_string o) = truthy_string o.
Proof.
  destruct o as [s|]; [|reflexivity]. unfold truthy_string.
  destruct (truthy (Some (VStr s))) eqn:E; [now rewrite E | reflexivity].
Qed.

Lemma truthy_number_idempotent (o : option number) :
  truthy_number (truthy_number o) = truthy_number o.
Proof.
  destruct o as [n|]; [|reflexivity]. unfold truthy_number.
  destruct (truthy (Some (VNum n))) eqn:E; [now rewrite E | reflexivity].
Qed.

Lemma truthy_string_Some (o : option string) (s : string) :
  truthy_string o = Some s <-> o = Some s /\ s <> "".
Proof.
  destruct o as [s'|]; simpl; [|split; [discriminate | intros [H _]; discriminate]].
  destruct (String.eqb s' "") eqn:E; simpl.
  - apply String.eqb_eq in E. subst. split; [discriminate|].
    intros [[= <-] H]. contradiction.
  - apply String.eqb_neq in E. split.
    + intros [= <-]. auto.
    + intros [[= <-] _]. reflexivity.
Qed.

(** A filter whose value JavaScript takes for false (an empty string, the
    number 0, NaN) is no filter: the query is the one built without it,
    and no filters at all are the empty filters.  In particular a limit
    or an offset of 0 is not applied. *)
Theorem false_filters_are_no_filters (userId : string) (f : TaskFilters) :
  getTasks_query userId (Some f) = getTasks_query userId (Some (clean_filters f)) /\
  getTasks_query userId None = getTasks_query userId (Some no_filters) /\
  q_limit (getTasks_query userId (Some f)) = truthy_number (f_limit f) /\
  q_offset (getTasks_query userId (Some f)) = truthy_number (f_offset f).
Proof.
  split.
  { unfold getTasks_query, or_default, field, clean_filters.
    cbn [f_status f_priority f_projectId f_workspaceId f_dueDate f_search
         f_sortBy f_sortOrder f_limit f_offset].
    now rewrite !truthy_string_idempotent, !truthy_number_idempotent. }
  split; [reflexivity|].
  unfold getTasks_query, or_default, field.
  destruct (truthy_string (f_status f)), (truthy_string (f_priority f)),
    (truthy_number (f_projectId f)), (truthy_number (f_workspaceId f)),
    (truthy_string (f_dueDate f)), (truthy_string (f_search f));
    cbn [when_];
    destruct (truthy_string (f_sortBy f)) as [sortBy|];
    destruct (truthy_string (f_sortOrder f)) as [sortOrder|];
    try destruct (String.eqb sortBy "dueDate");
    try destruct (String.eqb sortBy "priority");
    destruct (truthy_number (f_limit f)), (truthy_number (f_offset f));
    split; reflexivity.
Qed.

(** Turns [b = true <-> P], for a boolean that is known, into [P] or [~ P]. *)
Ltac settle_iff H :=
  match type of H with
  | true = true <-> ?P =>
      let F := fresh "F" in assert (F : P) by (apply H; reflexivity); clear H
  | false = true <-> ?P =>
      let F := fresh "F" in
      assert (F : ~ P) by (let Hx := fresh in intro Hx; apply H in Hx; discriminate);
      clear H
  end.

Lemma or_default_eqb (o : option string) (fallback s : string) :
  s <> "" -> fallback <> s ->
  (String.eqb (or_default o fallback) s = true <-> o = Some s).
Proof.
  intros Hs Hf. unfold or_default.
  destruct (truthy_string o) as [s'|] eqn:E.
  - apply truthy_string_Some in E as [-> _]. rewrite String.eqb_eq.
    split; [now intros -> | now intros [= ->]].
  - split.
    + intro H. apply String.eqb_eq in H. contradiction.
    + intro H. assert (E' : truthy_string o = Some s) by now apply truthy_string_Some.
      congruence.
Qed.

Lemma getTasks_orderBy (userId : string) (filters : option TaskFilters) :
  q_orderBy (getTasks_query userId filters) =
  [(if String.eqb (or_default (field filters f_sortBy) "createdAt") "dueDate"
    then ColDueDate
    else if String.eqb (or_default (field filters f_sortBy) "createdAt") "priority"
         then ColPriority else ColCreatedAt,
    if String.eqb (or_default (field filters f_sortOrder) "desc") "asc"
    then Asc else Desc)].
Proof.
  unfold getTasks_query.
  destruct (truthy_string (field filters f_status)),
    (truthy_string (field filters f_priority)),
    (truthy_number (field filters f_projectId)),
    (truthy_number (field filters f_workspaceId)),
    (truthy_string (field filters f_dueDate)),
    (truthy_string (field filters f_search)),
    (truthy_number (field filters f_limit)),
    (truthy_number (field filters f_offset));
    cbn [when_];
    destruct (String.eqb (or_default (field filters f_sortBy) "createdAt") "dueDate");
    destruct (String.eqb (or_default (field filters f_sortBy) "createdAt") "priority");
    reflexivity.
Qed.

(** [getTasks] orders its result exactly once.  The column is the due
    date or the priority only when [sortBy] names it, and the creation
    date for every other value; the direction is ascending only when
    [sortOrder] is the string asc, and descending for every other value. *)
Theorem tasks_are_ordered_once (userId : string) (filters : option TaskFilters) :
  exists col dir,
    q_orderBy (getTasks_query userId filters) = [(col, dir)] /\
    (dir = Asc <-> field filters f_sortOrder = Some "asc") /\
    (col = ColDueDate <-> field filters f_sortBy = Some "dueDate") /\
    (col = ColPriority <-> field filters f_sortBy = Some "priority") /\
    (col = ColCreatedAt <-> field filters f_sortBy <> Some "dueDate" /\
                            field filters f_sortBy <> Some "priority").
Proof.
  rewrite getTasks_orderBy. eexists. eexists. split; [reflexivity|].
  pose proof (@or_default_eqb (field filters f_sortOrder) "desc" "asc") as Ho.
  pose proof (@or_default_eqb (field filters f_sortBy) "createdAt" "dueDate") as Hd.
  pose proof (@or_default_eqb (field filters f_sortBy) "createdAt" "priority") as Hp.
  assert (Ho' := Ho ltac:(discriminate) ltac:(discriminate)).
  assert (Hd' := Hd ltac:(discriminate) ltac:(discriminate)).
  assert (Hp' := Hp ltac:(discriminate) ltac:(discriminate)).
  clear Ho Hd Hp.
  destruct (String.eqb (or_default (field filters f_sortOrder) "desc") "asc");
    destruct (String.eqb (or_default (field filters f_sortBy) "createdAt") "dueDate");
    destruct (String.eqb (or_default (field filters f_sortBy) "createdAt") "priority");
    settle_iff Ho'; settle_iff Hd'; settle_iff Hp';
    intuition (try discriminate; congruence).
Qed.

(** The first condition [getTasks] gives to the query builder is always
    the user id of the caller; no filter adds another condition on the
    user id, and at most six conditions follow. *)
Theorem tasks_query_starts_with_the_caller (userId : string) (filters : option TaskFilters) :
  exists rest,
    q_where (getTasks_query userId filters) = UserIdIs userId :: rest /\
    forallb (fun c => negb (is_owner_condition c)) rest = true /\
    List.length rest <= 6.
Proof.
  unfold getTasks_query.
  destruct (truthy_string (field filters f_status)),
    (truthy_string (field filters f_priority)),
    (truthy_number (field filters f_projectId)),
    (truthy_number (field filters f_workspaceId)),
    (truthy_string (field filters f_dueDate)),
    (truthy_string (field filters f_search)),
    (truthy_number (field filters f_limit)),
    (truthy_number (field filters f_offset));
    cbn [when_];
    destruct (String.eqb (or_default (field filters f_sortBy) "createdAt") "dueDate");
    destruct (String.eqb (or_default (field filters f_sortBy) "createdAt") "priority");
    (eexists; split; [reflexivity|]; split; [reflexivity | simpl; lia]).
Qed.

(** * More examples *)

Lemma silent_socket_gets_nothing_witness :
  never_binds 2 [Message 1 (AUTH "u1");
                 Message 2 (Parsed (VObj [("type", VStr "PING")]));
                 Emit "u1" (example_event "TASK_CREATED" 7);
                 Close 1] = true /\
  inbox 2 (run_state show_value
             [Message 1 (AUTH "u1");
              Message 2 (Parsed (VObj [("type", VStr "PING")]));
              Emit "u1" (example_event "TASK_CREATED" 7);
              Close 1] (init all_open)) = [].
Proof.
  split; [reflexivity|].
  exact (proj1 (silent_socket_gets_nothing show_value
                  [Message 1 (AUTH "u1");
                   Message 2 (Parsed (VObj [("type", VStr "PING")]));
                   Emit "u1" (example_event "TASK_CREATED" 7);
                   Close 1] all_open 2 eq_refl)).
Defined.

Lemma nothing_after_close_witness :
  never_binds 1 [Emit "u1" (example_event "TASK_UPDATED" 7); Message 2 (AUTH "u1")] = true /\
  inbox 1 (run_state show_value
             (Close 1 :: [Emit "u1" (example_event "TASK_UPDATED" 7); Message 2 (AUTH "u1")])
             example_state)
  = inbox 1 example_state.
Proof.
  split; [reflexivity|].
  exact (nothing_after_close show_value
           [Emit "u1" (example_event "TASK_UPDATED" 7); Message 2 (AUTH "u1")]
           example_state 1 eq_refl).
Defined.

Lemma non_string_userId_witness :
  is_auth (VObj [("type", VStr "AUTH"); ("userId", VNum (Num 5))]) = true /\
  (forall s, own_prop "userId" [("type", VStr "AUTH"); ("userId", VNum (Num 5))]
             <> Some (VStr s)) /\
  exists st' k,
    on_message 4 (Parsed (VObj [("type", VStr "AUTH"); ("userId", VNum (Num 5))]))
               example_state = Returned tt st' /\
    In 4 (connectionsFor k (userConnections st')) /\
    (forall s, k <> KStr s).
Proof.
  assert (H : forall s, own_prop "userId" [("type", VStr "AUTH"); ("userId", VNum (Num 5))]
                        <> Some (VStr s)) by (intro s; discriminate).
  split; [reflexivity|]. split; [exact H|].
  destruct (non_string_userId_is_filed_apart show_value 4
              [("type", VStr "AUTH"); ("userId", VNum (Num 5))] example_state eq_refl H)
    as (st' & k & E & Hin & Hk & _).
  exists st', k. auto.
Defined.

Lemma update_of_unmatched_task_witness :
  example_partial_parse "done" = Some "done" /\
  example_update (Num 1) "u2" "done" = Some [] /\
  update_route show_value example_task_data example_partial_parse example_update
               "u2" (Num 1) "done" example_state =
  Returned (ReplyJson 200 None)
           (add_trace (broadcast_actions show_value "u2"
                         (VObj [("type", VStr "TASK_UPDATED")]) example_state)
                      example_state).
Proof.
  split; [reflexivity|]. split; [reflexivity|].
  exact (proj1 (@update_of_unmatched_task show_value _ _ _ example_task_data
                  example_partial_parse example_update "u2" (Num 1) "done" "done"
                  example_state eq_refl eq_refl)).
Defined.

Lemma task_statistics_counts_witness :
  getTaskStats example_status example_dueDate example_db_run example_clock
               "u1" None (init all_open)
  = Returned (mkStats 4 1 1 1 (RatePercent 1 4) 0) (init all_open) /\
  1 + 1 <= 4.
Proof.
  assert (H : getTaskStats example_status example_dueDate example_db_run example_clock
                           "u1" None (init all_open)
              = Returned (mkStats 4 1 1 1 (RatePercent 1 4) 0) (init all_open))
    by reflexivity.
  split; [exact H|].
  exact (proj1 (proj2 (proj2 (@task_statistics_counts _ example_status example_dueDate
                                example_db_run example_clock "u1" None (init all_open)
                                _ _ H)))).
Defined.

Lemma completion_rate_witness :
  getTaskStats example_status example_dueDate example_db_run example_clock
               "u1" None (init all_open)
  = Returned (mkStats 4 1 1 1 (RatePercent 1 4) 0) (init all_open) /\
  (RatePercent 1 4 = RateZero <-> 4 = 0).
Proof.
  assert (H : getTaskStats example_status example_dueDate example_db_run example_clock
                           "u1" None (init all_open)
              = Returned (mkStats 4 1 1 1 (RatePercent 1 4) 0) (init all_open))
    by reflexivity.
  split; [exact H|].
  exact (proj1 (@completion_rate_never_divides_by_zero _ example_status example_dueDate
                  example_db_run example_clock "u1" None (init all_open) _ _ H)).
Defined.

Lemma suggestions_in_fixed_order_witness :
  generateAISuggestions example_status example_dueDate example_db_run
                        example_templates example_userStats example_clock 15 "u1"
                        (init all_open)
  = Returned [overdue_focus 1; optimal_time; use_template] (init all_open) /\
  List.length [overdue_focus 1; optimal_time; use_template] <= 3.
Proof.
  assert (H : generateAISuggestions example_status example_dueDate example_db_run
                example_templates example_userStats example_clock 15 "u1"
                (init all_open)
              = Returned [overdue_focus 1; optimal_time; use_template] (init all_open))
    by reflexivity.
  split; [exact H|].
  destruct (@suggestions_in_fixed_order _ _ _ example_status example_dueDate example_db_run
              example_templates example_userStats example_clock 15%Z "u1"
              (init all_open) _ _ H)
    as (_ & userTasks & templates & _ & _ & _ & Hlen & _).
  exact Hlen.
Defined.
